(** * Calculator engine of the jisuanji calculator page

    A shallow embedding of the [Calculator] class (the page script with the
    object pools: [handleNumberButton], [handleOperatorButton], [calculate],
    [scientificCalculation], [convertBase], [clear], ...) and of the older
    page script [script.js], together with the part of the ECMAScript runtime
    these methods call: strings of UTF-16 code units, IEEE 754 binary64
    numbers, [parseFloat], [parseInt], [Number.prototype.toString] and
    [Number.prototype.toPrecision]. *)

From Stdlib Require Import ZArith NArith Bool List String Ascii Lia.
From Stdlib Require Import Floats.SpecFloat.
Import ListNotations.

Local Open Scope Z_scope.

(** ** Strings

    A JavaScript string is a sequence of UTF-16 code units; the sentinels of
    the calculator are written in Chinese, so a byte string would give them
    the wrong length. *)

Module JsString.

Definition char16 := N.
Definition str := list char16.

(** An ASCII literal as a JavaScript string. *)
Definition lit (s : string) : str :=
  List.map N_of_ascii (list_ascii_of_string s).

Definition chr (a : ascii) : char16 := N_of_ascii a.

Fixpoint eqb (a b : str) : bool :=
  match a, b with
  | [], [] => true
  | x :: a', y :: b' => N.eqb x y && eqb a' b'
  | _, _ => false
  end.

(** [s.includes(c)] for a one-character needle. *)
Definition includes (s : str) (c : char16) : bool :=
  existsb (N.eqb c) s.

(** [s.slice(0, -1)]. *)
Definition slice_init (s : str) : str := removelast s.

(** [s.startsWith(p)]. *)
Fixpoint startsWith (s p : str) : bool :=
  match p, s with
  | [], _ => true
  | c :: p', d :: s' => N.eqb c d && startsWith s' p'
  | _ :: _, [] => false
  end.

(** [s.toUpperCase()] on the characters a radix string can hold. *)
Definition upper_char (c : char16) : char16 :=
  if ((97 <=? c) && (c <=? 122))%N then (c - 32)%N else c.

Definition toUpperCase (s : str) : str := List.map upper_char s.

(** WhiteSpace and LineTerminator code units, as skipped by [trim],
    [parseFloat] and [parseInt]. *)
Definition is_space (c : char16) : bool :=
  existsb (N.eqb c)
    [9; 10; 11; 12; 13; 32; 160; 5760; 8192; 8193; 8194; 8195; 8196; 8197;
     8198; 8199; 8200; 8201; 8202; 8232; 8233; 8239; 8287; 12288; 65279]%N.

Fixpoint trimStart (s : str) : str :=
  match s with
  | c :: s' => if is_space c then trimStart s' else s
  | [] => []
  end.

Definition trim (s : str) : str := rev (trimStart (rev (trimStart s))).

End JsString.

Import JsString.

(** ** Numbers

    A JavaScript Number is an IEEE 754 binary64 value.  The arithmetic is
    the Standard Library's executable specification [SpecFloat] at precision
    53 and maximal exponent 1024 (round to nearest, ties to even). *)

Module JsNumber.

Definition number := spec_float.

Definition prec : Z := 53.
Definition emax : Z := 1024.

Definition nan : number := S754_nan.
Definition pos_zero : number := S754_zero false.
Definition infinity (neg : bool) : number := S754_infinity neg.

(** The Number nearest to the integer [z]. *)
Definition of_Z (z : Z) : number := binary_normalize prec emax z 0 false.

Definition add : number -> number -> number := SFadd prec emax.
Definition sub : number -> number -> number := SFsub prec emax.
Definition mul : number -> number -> number := SFmul prec emax.
Definition div : number -> number -> number := SFdiv prec emax.
Definition sqrt : number -> number := SFsqrt prec emax.
Definition neg : number -> number := SFopp.

(** [x < y], [x <= y], [x === y] on Numbers. *)
Definition ltb : number -> number -> bool := SFltb.
Definition leb : number -> number -> bool := SFleb.
Definition eqb : number -> number -> bool := SFeqb.

Definition isNaN (x : number) : bool :=
  match x with S754_nan => true | _ => false end.

(** Same bit pattern (up to the payload of NaN). *)
Definition same (x y : number) : bool :=
  match x, y with
  | S754_zero a, S754_zero b => Bool.eqb a b
  | S754_infinity a, S754_infinity b => Bool.eqb a b
  | S754_nan, S754_nan => true
  | S754_finite a m e, S754_finite b m' e' =>
      Bool.eqb a b && Pos.eqb m m' && Z.eqb e e'
  | _, _ => false
  end.

(** [Number.isInteger]. *)
Definition isInteger (x : number) : bool :=
  match x with
  | S754_zero _ => true
  | S754_finite _ m e =>
      if 0 <=? e then true else Z.eqb (Zpos m mod 2 ^ (- e)) 0
  | _ => false
  end.

(** The magnitude of a finite non-zero Number as a fraction in lowest
    terms. *)
Definition fraction (m : positive) (e : Z) : Z * Z :=
  if 0 <=? e then (Zpos m * 2 ^ e, 1)
  else let g := Z.gcd (Zpos m) (2 ^ (- e)) in
       (Zpos m / g, 2 ^ (- e) / g).

(** [Math.PI] and [Math.E]. *)
Definition Math_PI : number := S754_finite false 7074237752028440 (-51).
Definition Math_E : number := S754_finite false 6121026514868073 (-51).

(** *** Digits in a radix *)

Fixpoint digits_aux (fuel : nat) (R n : Z) (acc : list Z) : list Z :=
  match fuel with
  | O => acc
  | S f =>
      if n <? R then n :: acc
      else digits_aux f R (n / R) (n mod R :: acc)
  end.

(** The digits of [n >= 0] in radix [R], most significant first. *)
Definition digits (R n : Z) : list Z :=
  digits_aux (S (Z.to_nat (Z.log2 n))) R n [].

Definition of_digits (R : Z) (ds : list Z) : Z :=
  fold_left (fun a d => a * R + d) ds 0.

(** The character of a digit value, lower case as [toString] gives it. *)
Definition digit_char (d : Z) : char16 :=
  if d <? 10 then Z.to_N (48 + d) else Z.to_N (87 + d).

(** The value of a character as a digit, if it is one in some radix up to
    36. *)
Definition digit_value (c : char16) : option Z :=
  let z := Z.of_N c in
  if (48 <=? z) && (z <=? 57) then Some (z - 48)
  else if (97 <=? z) && (z <=? 122) then Some (z - 87)
  else if (65 <=? z) && (z <=? 90) then Some (z - 55)
  else None.

Definition digit_in (R : Z) (c : char16) : option Z :=
  match digit_value c with
  | Some d => if d <? R then Some d else None
  | None => None
  end.

Definition digit_string (R n : Z) : str := List.map digit_char (digits R n).

Definition zeros (n : Z) : str := repeat (chr "0") (Z.to_nat n).

(** The longest prefix of digits of radix [R], as digit values, and the
    rest. *)
Fixpoint take_digits (R : Z) (s : str) : list Z * str :=
  match s with
  | c :: s' =>
      match digit_in R c with
      | Some d => let (ds, r) := take_digits R s' in (d :: ds, r)
      | None => ([], s)
      end
  | [] => ([], [])
  end.

(** *** Decimal text to Number *)

(** The Number nearest to [s * 10^p], for [s >= 0]. *)
Definition of_decimal (s p : Z) : number :=
  match s with
  | Zpos m =>
      if 0 <=? p then of_Z (s * 10 ^ p)
      else div (S754_finite false m 0)
               (S754_finite false (Z.to_pos (10 ^ (- p))) 0)
  | _ => pos_zero
  end.

Definition with_sign (negative : bool) (x : number) : number :=
  if negative then neg x else x.

(** The optional sign of a numeric literal. *)
Definition take_sign (s : str) : bool * str :=
  match s with
  | c :: s' =>
      if N.eqb c (chr "-") then (true, s')
      else if N.eqb c (chr "+") then (false, s')
      else (false, s)
  | [] => (false, [])
  end.

(** The exponent part [e[+-]digits] of a decimal literal; 0 when there is
    none or it has no digit. *)
Definition take_exponent (s : str) : Z :=
  match s with
  | c :: s' =>
      if N.eqb c (chr "e") || N.eqb c (chr "E") then
        let (sg, s'') := take_sign s' in
        match fst (take_digits 10 s'') with
        | [] => 0
        | ds => if sg then - of_digits 10 ds else of_digits 10 ds
        end
      else 0
  | [] => 0
  end.

(** [parseFloat]: the longest prefix that is a StrDecimalLiteral, after
    leading white space. *)
Definition parseFloat (input : str) : number :=
  let (sg, s) := take_sign (trimStart input) in
  if startsWith s (lit "Infinity") then infinity sg
  else
    let (ip, r) := take_digits 10 s in
    let (fp, r') :=
      match r with
      | c :: r1 => if N.eqb c (chr ".") then take_digits 10 r1 else ([], r)
      | [] => ([], r)
      end in
    match ip ++ fp with
    | [] => nan
    | ds =>
        with_sign sg
          (of_decimal (of_digits 10 ds)
                      (take_exponent r' - Z.of_nat (List.length fp)))
    end.

(** [parseInt(input, radix)]; radix 0 stands for an absent radix. *)
Definition parseInt (input : str) (radix : Z) : number :=
  let (sg, s) := take_sign (trimStart input) in
  if negb (radix =? 0) && ((radix <? 2) || (36 <? radix)) then nan
  else
    let strip := (radix =? 0) || (radix =? 16) in
    let R := if radix =? 0 then 10 else radix in
    let (R, s) :=
      if strip && (startsWith s (lit "0x") || startsWith s (lit "0X"))
      then (16, skipn 2 s) else (R, s) in
    match fst (take_digits R s) with
    | [] => nan
    | ds => with_sign sg (of_Z (of_digits R ds))
    end.

(** *** Number to decimal text *)

(** The floor of [(a/b) * 10^p], for [a >= 0] and [b > 0]. *)
Definition scale_floor (a b p : Z) : Z :=
  if 0 <=? p then (a * 10 ^ p) / b else a / (b * 10 ^ (- p)).

(** [(a/b) * 10^p] compared with [c/2]. *)
Definition scale_compare2 (a b p c : Z) : comparison :=
  if 0 <=? p then Z.compare (2 * a * 10 ^ p) (c * b)
  else Z.compare (2 * a) (c * b * 10 ^ (- p)).

Fixpoint small_exponent (fuel : nat) (a b j : Z) : Z :=
  match fuel with
  | O => j
  | S f => if b <=? a * 10 ^ j then j else small_exponent f a b (j + 1)
  end.

(** The integer [n] with [10^(n-1) <= a/b < 10^n]. *)
Definition decimal_exponent (a b : Z) : Z :=
  if b <=? a then Z.of_nat (List.length (digits 10 (a / b)))
  else 1 - small_exponent (S (Z.to_nat (Z.log2 b))) a b 1.

Definition round_trips (x : number) (s p : Z) : bool :=
  same (of_decimal s p) x.

(** Of [lo] and [lo + 1], the one nearer to [(a/b) * 10^q]; the even one
    on a tie. *)
Definition nearer (a b q lo : Z) : Z :=
  match scale_compare2 a b q (2 * lo + 1) with
  | Lt => lo
  | Gt => lo + 1
  | Eq => if Z.even lo then lo else lo + 1
  end.

(** Number::toString looks for the least number of digits [k] for which
    some [s] of [k] digits gives [x] back: only the two [k]-digit decimals
    around [x] have to be tried. *)
Fixpoint shortest_aux (fuel : nat) (x : number) (a b n k : Z) : Z * Z :=
  let lo := scale_floor a b (k - n) in
  let ok_lo := round_trips x lo (n - k) in
  let ok_hi := round_trips x (lo + 1) (n - k) in
  match fuel with
  | O => (k, nearer a b (k - n) lo)
  | S f =>
      if ok_lo && ok_hi then (k, nearer a b (k - n) lo)
      else if ok_lo then (k, lo)
      else if ok_hi then (k, lo + 1)
      else shortest_aux f x a b n (k + 1)
  end.

(** [(n, k, s)] of Number::toString for the positive Number
    [m * 2^e]. *)
Definition shortest (m : positive) (e : Z) : Z * Z * Z :=
  let (a, b) := fraction m e in
  let n := decimal_exponent a b in
  let (k, s) := shortest_aux 16 (S754_finite false m e) a b n 1 in
  if s =? 10 ^ k then (n + 1, 1, 1) else (n, k, s).

Definition exponent_suffix (e : Z) : str :=
  chr "e" :: (if 0 <=? e then chr "+" else chr "-")
          :: digit_string 10 (Z.abs e).

Definition format_shortest (n k s : Z) : str :=
  let ds := digit_string 10 s in
  if (k <=? n) && (n <=? 21) then ds ++ zeros (n - k)
  else if (0 <? n) && (n <=? 21) then
    firstn (Z.to_nat n) ds ++ chr "." :: skipn (Z.to_nat n) ds
  else if (-6 <? n) && (n <=? 0) then lit "0." ++ zeros (- n) ++ ds
  else if k =? 1 then hd (chr "0") ds :: exponent_suffix (n - 1)
  else hd (chr "0") ds :: chr "." :: tl ds ++ exponent_suffix (n - 1).

(** [x.toString()], also what a template literal does to a Number. *)
Definition toString (x : number) : str :=
  match x with
  | S754_nan => lit "NaN"
  | S754_zero _ => lit "0"
  | S754_infinity sg => if sg then lit "-Infinity" else lit "Infinity"
  | S754_finite sg m e =>
      let '(n, k, s) := shortest m e in
      (if sg then lit "-" else []) ++ format_shortest n k s
  end.

(** *** Number to text in another radix *)

Fixpoint fraction_digits (fuel : nat) (R r b : Z) : list Z :=
  match fuel with
  | O => []
  | S f =>
      if r =? 0 then []
      else (r * R / b) :: fraction_digits f R ((r * R) mod b) b
  end.

(** [x.toString(R)].  ECMAScript leaves the digits of a fraction in a radix
    other than 10 to the implementation; here they are the exact expansion,
    cut after as many digits as the denominator has bits.  The calculator
    only renders what [parseInt] returned, which has no fraction. *)
Definition toStringRadix (x : number) (R : Z) : str :=
  if R =? 10 then toString x
  else
    match x with
    | S754_finite sg m e =>
        let (a, b) := fraction m e in
        (if sg then lit "-" else [])
        ++ digit_string R (a / b)
        ++ (if a mod b =? 0 then []
            else chr "." :: List.map digit_char
                   (fraction_digits (Z.to_nat (Z.log2 b)) R (a mod b) b))
    | _ => toString x
    end.

(** *** toPrecision *)

Definition layout_precision (ds : str) (e p : Z) : str :=
  if (e <? -6) || (p <=? e) then
    (if p =? 1 then ds else hd (chr "0") ds :: chr "." :: tl ds)
    ++ exponent_suffix e
  else if e =? p - 1 then ds
  else if 0 <=? e then
    firstn (Z.to_nat (e + 1)) ds ++ chr "." :: skipn (Z.to_nat (e + 1)) ds
  else lit "0." ++ zeros (- (e + 1)) ++ ds.

(** [x.toPrecision(p)] for [1 <= p <= 100]. *)
Definition toPrecision (x : number) (p : Z) : str :=
  match x with
  | S754_zero _ => layout_precision (zeros p) 0 p
  | S754_finite sg m e =>
      let (a, b) := fraction m e in
      let e0 := decimal_exponent a b - 1 in
      let q := p - 1 - e0 in
      let lo := scale_floor a b q in
      let n0 :=
        match scale_compare2 a b q (2 * lo + 1) with
        | Lt => lo
        | _ => lo + 1
        end in
      let (n, e') := if n0 =? 10 ^ p then (10 ^ (p - 1), e0 + 1)
                     else (n0, e0) in
      (if sg then lit "-" else [])
      ++ layout_precision (digit_string 10 n) e' p
  | _ => toString x
  end.

End JsNumber.

Import JsNumber.

(** The functions of [Math] that ECMAScript leaves to the implementation
    (it only asks for an approximation): they are a parameter of the
    engine. *)
Record MathLib := {
  Math_sin : number -> number;
  Math_cos : number -> number;
  Math_tan : number -> number;
  Math_log10 : number -> number;
  Math_log : number -> number;
  Math_pow : number -> number -> number
}.

(** ** The Calculator class *)

Module Calculator.

Inductive base := dec | bin | oct | hex.

(** The fields of [Calculator] that the engine reads and writes; the
    effects configuration, the pools and the element cache belong to the
    page. *)
Record state := mkState {
  currentInput : str;
  previousInput : str;
  operation : option str;
  resetScreen : bool;
  isScientific : bool;
  currentBase : base;
  history : list str
}.

(** What a method shows on the page: [showNotification], [updateDisplay]
    and the text of the conversion panel. *)
Inductive notice :=
  | BinaryDigitsOnly
  | OctalDigitsOnly
  | DivisionByZero
  | Cleared
  | ModeChanged.

Inductive effect :=
  | Notify (n : notice)
  | Refresh
  | ConversionResult (text : str).

(** The constructor. *)
Definition init : state :=
  {| currentInput := lit "0"; previousInput := []; operation := None;
     resetScreen := false; isScientific := false; currentBase := dec;
     history := [] |}.

Definition MAX_HISTORY : nat := 50.

Definition ERROR : str := [38169; 35823]%N.
Definition TOO_LARGE : str := [22826; 22823]%N.
Definition INVALID_INPUT : str := [26080; 25928; 36755; 20837]%N.
Definition ENTER_A_NUMBER : str := [35831; 36755; 20837; 25968; 23383]%N.

Definition TIMES : str := [215]%N.
Definition DIVIDE : str := [247]%N.
Definition SYM_PI : str := [960]%N.
Definition SYM_ROOT : str := [8730]%N.

Definition set_currentInput (v : str) (s : state) : state :=
  {| currentInput := v; previousInput := previousInput s;
     operation := operation s; resetScreen := resetScreen s;
     isScientific := isScientific s; currentBase := currentBase s;
     history := history s |}.

Definition set_previousInput (v : str) (s : state) : state :=
  {| currentInput := currentInput s; previousInput := v;
     operation := operation s; resetScreen := resetScreen s;
     isScientific := isScientific s; currentBase := currentBase s;
     history := history s |}.

Definition set_operation (v : option str) (s : state) : state :=
  {| currentInput := currentInput s; previousInput := previousInput s;
     operation := v; resetScreen := resetScreen s;
     isScientific := isScientific s; currentBase := currentBase s;
     history := history s |}.

Definition set_resetScreen (v : bool) (s : state) : state :=
  {| currentInput := currentInput s; previousInput := previousInput s;
     operation := operation s; resetScreen := v;
     isScientific := isScientific s; currentBase := currentBase s;
     history := history s |}.

Definition set_isScientific (v : bool) (s : state) : state :=
  {| currentInput := currentInput s; previousInput := previousInput s;
     operation := operation s; resetScreen := resetScreen s;
     isScientific := v; currentBase := currentBase s;
     history := history s |}.

Definition set_history (v : list str) (s : state) : state :=
  {| currentInput := currentInput s; previousInput := previousInput s;
     operation := operation s; resetScreen := resetScreen s;
     isScientific := isScientific s; currentBase := currentBase s;
     history := v |}.

(** A string in a condition: the empty string is false. *)
Definition truthy (v : str) : bool :=
  match v with [] => false | _ :: _ => true end.

(** [this.operation] in a condition: [null] and the empty string are
    false. *)
Definition truthy_op (o : option str) : bool :=
  match o with Some v => truthy v | None => false end.

(** [this.operation] inside a template literal. *)
Definition operation_text (o : option str) : str :=
  match o with Some v => v | None => lit "null" end.

(** The test of [/^[01]+$/] and of [/^[0-7]+$/]: one character at least,
    all of them in the range. *)
Definition all_between (lo hi : ascii) (v : str) : bool :=
  truthy v && forallb (fun c => (chr lo <=? c)%N && (c <=? chr hi)%N) v.

(** The base check at the head of [handleNumberButton]: only the binary and
    the octal base look at the digit. *)
Definition base_check (b : base) (value : str) : option notice :=
  match b with
  | bin => if negb (all_between "0" "1" value) then Some BinaryDigitsOnly
           else None
  | oct => if negb (all_between "0" "7" value) then Some OctalDigitsOnly
           else None
  | _ => None
  end.

(** [handleNumberButton], on the [data-number] of the button. *)
Definition handleNumberButton (value : str) (s : state)
  : state * list effect :=
  match base_check (currentBase s) value with
  | Some n => (s, [Notify n])
  | None =>
      if JsString.eqb (currentInput s) (lit "0") || resetScreen s
      then (set_resetScreen false (set_currentInput value s), [Refresh])
      else (set_currentInput (currentInput s ++ value) s, [Refresh])
  end.

(** [addToHistory]: newest first, the oldest dropped beyond the cap. *)
Definition addToHistory (entry : str) (s : state) : state :=
  let h := entry :: history s in
  set_history (if (MAX_HISTORY <? List.length h)%nat then removelast h else h)
              s.

Definition clear (s : state) : state * list effect :=
  (set_operation None (set_previousInput [] (set_currentInput (lit "0") s)),
   [Refresh; Notify Cleared]).

Definition deleteLastCharacter (s : state) : state * list effect :=
  (if (1 <? List.length (currentInput s))%nat
   then set_currentInput (slice_init (currentInput s)) s
   else set_currentInput (lit "0") s,
   [Refresh]).

Definition addDecimal (s : state) : state * list effect :=
  if negb (includes (currentInput s) (chr "."))
  then (set_currentInput (currentInput s ++ lit ".") s, [Refresh])
  else (s, []).

Definition toggleMode (s : state) : state * list effect :=
  (set_isScientific (negb (isScientific s)) s, [Notify ModeChanged]).

Definition radix_of (b : base) : Z :=
  match b with dec => 10 | bin => 2 | oct => 8 | hex => 16 end.

(** [convertBase]; the bases are the four the conversion buttons name, so
    the [default] branches of the two switches are not reached. *)
Definition convertBase (value : str) (fromBase toBase : base) : str :=
  let decimalValue := parseInt value (radix_of fromBase) in
  if isNaN decimalValue then INVALID_INPUT
  else
    match toBase with
    | hex => toUpperCase (toStringRadix decimalValue 16)
    | b => toStringRadix decimalValue (radix_of b)
    end.

(** The [data-conversion] of the six conversion buttons. *)
Inductive conversion :=
  | dec2bin | dec2oct | dec2hex | bin2dec | oct2dec | hex2dec.

Definition conversion_bases (c : conversion) : base * base :=
  match c with
  | dec2bin => (dec, bin)
  | dec2oct => (dec, oct)
  | dec2hex => (dec, hex)
  | bin2dec => (bin, dec)
  | oct2dec => (oct, dec)
  | hex2dec => (hex, dec)
  end.

(** [handleConversion], on the text of the conversion input field. *)
Definition handleConversion (c : conversion) (field : str) (s : state)
  : state * list effect :=
  let inputValue := trim field in
  if negb (truthy inputValue) then (s, [ConversionResult ENTER_A_NUMBER])
  else
    let (f, t) := conversion_bases c in
    let result := convertBase inputValue f t in
    match f with
    | dec => (set_currentInput result s, [ConversionResult result; Refresh])
    | _ => (s, [ConversionResult result])
    end.

(** The loop of the factorial: [for (let i = 2; i <= num; i++) result *= i].
    It returns the counter with the product, so that one can see that the
    loop left through its test and not for lack of fuel. *)
Fixpoint factorial_loop (fuel : nat) (num i result : number)
  : number * number :=
  match fuel with
  | O => (i, result)
  | S f =>
      if leb i num then factorial_loop f num (add i (of_Z 1)) (mul result i)
      else (i, result)
  end.

Section Engine.

Variable Math : MathLib.

Definition degrees (num : number) : number :=
  div (mul num Math_PI) (of_Z 180).

(** [scientificCalculation]. *)
Definition scientificCalculation (func value : str) : str :=
  let num := parseFloat value in
  if isNaN num then ERROR
  else if JsString.eqb func (lit "sin") then
    toString (Math_sin Math (degrees num))
  else if JsString.eqb func (lit "cos") then
    toString (Math_cos Math (degrees num))
  else if JsString.eqb func (lit "tan") then
    toString (Math_tan Math (degrees num))
  else if JsString.eqb func (lit "log") then
    if ltb pos_zero num then toString (Math_log10 Math num) else ERROR
  else if JsString.eqb func (lit "ln") then
    if ltb pos_zero num then toString (Math_log Math num) else ERROR
  else if JsString.eqb func (lit "sqrt") then
    if leb pos_zero num then toString (sqrt num) else ERROR
  else if JsString.eqb func (lit "square") then
    toString (mul num num)
  else if JsString.eqb func (lit "cube") then
    toString (mul (mul num num) num)
  else if JsString.eqb func (lit "factorial") then
    if ltb num pos_zero || negb (isInteger num) then ERROR
    else if ltb (of_Z 100) num then TOO_LARGE
    else toString (snd (factorial_loop 100 num (of_Z 2) (of_Z 1)))
  else value.

(** The end of [calculate] once the switch has produced [result]. *)
Definition finish_calculation (prev current result : number) (s : state)
  : state * list effect :=
  let result := parseFloat (toPrecision result 12) in
  let s1 := set_previousInput []
              (set_operation None (set_currentInput (toString result) s)) in
  (addToHistory
     (toString prev ++ lit " " ++ operation_text (operation s1) ++ lit " "
      ++ toString current ++ lit " = " ++ toString result) s1,
   [Refresh]).

(** [calculate]. *)
Definition calculate (s : state) : state * list effect :=
  if negb (truthy_op (operation s)) || negb (truthy (previousInput s))
  then (s, [])
  else
    let prev := parseFloat (previousInput s) in
    let current := parseFloat (currentInput s) in
    let op := operation_text (operation s) in
    if JsString.eqb op (lit "+") then
      finish_calculation prev current (add prev current) s
    else if JsString.eqb op (lit "-") then
      finish_calculation prev current (sub prev current) s
    else if JsString.eqb op TIMES then
      finish_calculation prev current (mul prev current) s
    else if JsString.eqb op DIVIDE then
      if JsNumber.eqb current pos_zero then (s, [Notify DivisionByZero])
      else finish_calculation prev current (div prev current) s
    else if JsString.eqb op (lit "^") then
      finish_calculation prev current (Math_pow Math prev current) s
    else (s, []).

(** [handleOperatorButton], on the text of the button. *)
Definition handleOperatorButton (value : str) (s : state)
  : state * list effect :=
  if JsString.eqb value (lit "%") then
    (set_currentInput
       (toString (div (parseFloat (currentInput s)) (of_Z 100))) s,
     [Refresh])
  else
    let (s1, fx) :=
      if truthy_op (operation s) && truthy (previousInput s)
         && negb (resetScreen s)
      then calculate s else (s, []) in
    (set_resetScreen true
       (set_operation (Some value)
          (set_previousInput (currentInput s1) s1)),
     fx).

(** [handleScientificButton], on the [data-scientific] of the button. *)
Definition handleScientificButton (func : str) (s : state)
  : state * list effect :=
  (set_currentInput (scientificCalculation func (currentInput s)) s,
   [Refresh]).

(** [handleMathSymbol], on the [data-symbol] of the symbol.  The factorial
    gets a Number, which [parseFloat] turns into text first. *)
Definition handleMathSymbol (sym : str) (s : state) : state * list effect :=
  (if JsString.eqb sym SYM_PI then set_currentInput (toString Math_PI) s
   else if JsString.eqb sym (lit "e") then
     set_currentInput (toString Math_E) s
   else if JsString.eqb sym SYM_ROOT then
     set_currentInput (scientificCalculation (lit "sqrt") (currentInput s)) s
   else if JsString.eqb sym (lit "^") then
     set_resetScreen true
       (set_previousInput (currentInput s) (set_operation (Some (lit "^")) s))
   else if JsString.eqb sym (lit "!") then
     set_currentInput
       (scientificCalculation (lit "factorial")
          (toString (parseInt (currentInput s) 0))) s
   else s,
   [Refresh]).

(** The operations of the engine, as the page calls them; the listener of
    the scientific buttons only calls [handleScientificButton] in scientific
    mode. *)
Inductive action :=
  | InputDigit (d : char16)
  | SetOperator (op : str)
  | Evaluate
  | Clear
  | DeleteLastChar
  | AddDecimalPoint
  | Scientific (func : str)
  | Symbol (sym : str)
  | Convert (c : conversion) (field : str)
  | ToggleMode.

Definition run (a : action) (s : state) : state * list effect :=
  match a with
  | InputDigit d => handleNumberButton [d] s
  | SetOperator op => handleOperatorButton op s
  | Evaluate => calculate s
  | Clear => clear s
  | DeleteLastChar => deleteLastCharacter s
  | AddDecimalPoint => addDecimal s
  | Scientific func =>
      if isScientific s then handleScientificButton func s else (s, [])
  | Symbol sym => handleMathSymbol sym s
  | Convert c field => handleConversion c field s
  | ToggleMode => toggleMode s
  end.

Definition step (s : state) (a : action) : state := fst (run a s).

Definition run_all (s : state) (l : list action) : state := fold_left step l s.

Inductive reachable : state -> Prop :=
  | reachable_init : reachable init
  | reachable_step s a : reachable s -> reachable (step s a).

End Engine.

End Calculator.

(** ** The older page script, [script.js]

    The same calculator without the class: its state is a handful of
    variables of the page's closure. *)

Module Legacy.

Record state := mkState {
  currentInput : str;
  previousInput : str;
  operation : option str;
  resetScreen : bool;
  calculationHistory : list str
}.

Definition init : state :=
  {| currentInput := lit "0"; previousInput := []; operation := None;
     resetScreen := false; calculationHistory := [] |}.

Definition BACKSPACE : str := [9003]%N.

(** [calculate]: the entry of the history is built before the variables
    are reset, and there is no test of the divisor. *)
Definition calculate (s : state) : state :=
  let prev := parseFloat (previousInput s) in
  let current := parseFloat (currentInput s) in
  let op := Calculator.operation_text (operation s) in
  let finish (result : number) :=
    {| currentInput := toString result;
       previousInput := [];
       operation := None;
       resetScreen := resetScreen s;
       calculationHistory :=
         calculationHistory s
         ++ [previousInput s ++ lit " " ++ op ++ lit " " ++ currentInput s
             ++ lit " = " ++ toString result] |} in
  match operation s with
  | None => s
  | Some o =>
      if JsString.eqb o (lit "+") then finish (add prev current)
      else if JsString.eqb o (lit "-") then finish (sub prev current)
      else if JsString.eqb o Calculator.TIMES then finish (mul prev current)
      else if JsString.eqb o Calculator.DIVIDE then finish (div prev current)
      else s
  end.

(** The classes of the basic buttons and their text. *)
Inductive button :=
  | NumberButton (value : str)
  | OperatorButton (value : str)
  | ClearButton
  | EqualsButton.

(** The click listener of the basic buttons. *)
Definition click (b : button) (s : state) : state :=
  match b with
  | NumberButton value =>
      if JsString.eqb (currentInput s) (lit "0") || resetScreen s
      then {| currentInput := value; previousInput := previousInput s;
              operation := operation s; resetScreen := false;
              calculationHistory := calculationHistory s |}
      else {| currentInput := currentInput s ++ value;
              previousInput := previousInput s;
              operation := operation s; resetScreen := resetScreen s;
              calculationHistory := calculationHistory s |}
  | OperatorButton value =>
      if JsString.eqb value BACKSPACE then
        {| currentInput :=
             if (1 <? List.length (currentInput s))%nat
             then slice_init (currentInput s) else lit "0";
           previousInput := previousInput s;
           operation := operation s; resetScreen := resetScreen s;
           calculationHistory := calculationHistory s |}
      else if JsString.eqb value (lit "%") then
        {| currentInput :=
             toString (div (parseFloat (currentInput s)) (of_Z 100));
           previousInput := previousInput s;
           operation := operation s; resetScreen := resetScreen s;
           calculationHistory := calculationHistory s |}
      else
        {| currentInput := currentInput s;
           previousInput := currentInput s;
           operation := Some value; resetScreen := true;
           calculationHistory := calculationHistory s |}
  | ClearButton =>
      {| currentInput := lit "0"; previousInput := [];
         operation := None; resetScreen := resetScreen s;
         calculationHistory := calculationHistory s |}
  | EqualsButton =>
      if Calculator.truthy_op (operation s)
         && Calculator.truthy (previousInput s)
      then calculate s else s
  end.

End Legacy.

(** An instance of [MathLib] to run the engine on inputs that reach none of
    the functions the implementation chooses: each of them answers NaN. *)
Definition math_unused : MathLib :=
  {| Math_sin := fun _ => nan; Math_cos := fun _ => nan;
     Math_tan := fun _ => nan; Math_log10 := fun _ => nan;
     Math_log := fun _ => nan; Math_pow := fun _ _ => nan |}.

(** ** Vocabulary of the specification

    The notions the specification of the engine uses and that the code does
    not define: they follow the words of the specification. *)

Module Spec.

Import Calculator.

(** The digit buttons carry the ten decimal digits. *)
Definition decimal_digit (d : char16) : bool :=
  ((chr "0" <=? d) && (d <=? chr "9"))%N.

(** The alphabet of each base: binary 0-1, octal 0-7, decimal 0-9,
    hexadecimal 0-9 and A-F in either case. *)
Definition valid_digit (b : base) (d : char16) : bool :=
  match b with
  | bin => ((chr "0" <=? d) && (d <=? chr "1"))%N
  | oct => ((chr "0" <=? d) && (d <=? chr "7"))%N
  | dec => decimal_digit d
  | hex => (decimal_digit d
            || ((chr "A" <=? d) && (d <=? chr "F"))
            || ((chr "a" <=? d) && (d <=? chr "f")))%N
  end.

(** The digits [ds] entered one after the other with [inputDigit]. *)
Definition input_digits (s : state) (ds : list char16) : state :=
  fold_left (fun s d => fst (handleNumberButton [d] s)) ds s.


(** A necessary condition for a string to be a numeral of base [b], whole
    or partial: it holds digits of the base, a sign, a point or an exponent
    mark, and nothing else. *)
Definition numeral_chars (b : base) (v : str) : bool :=
  forallb (fun c => valid_digit b c
                    || existsb (N.eqb c) [chr "."; chr "-"; chr "+"; chr "e"])
          v.

(** The factorial of a natural number. *)
Fixpoint factorial (n : nat) : Z :=
  match n with
  | O => 1
  | S k => Z.of_nat n * factorial k
  end.

(** The decimal numeral of a non-negative integer. *)
Definition decimal (n : Z) : str := digit_string 10 n.

(** The positive Number [r] is the integer [v] up to one part in
    [2^bits]. *)
Definition approximates (bits : Z) (r : number) (v : Z) : bool :=
  match r with
  | S754_finite false m e =>
      (0 <=? e) && (Z.abs (Zpos m * 2 ^ e - v) * 2 ^ bits <=? v)
  | _ => false
  end.

End Spec.

(** ** States to run the engine on *)

Module Examples.

Import Calculator.

(** The state after 5, the division key and 0. *)
Definition five_by_zero : state :=
  {| currentInput := lit "0"; previousInput := lit "5";
     operation := Some DIVIDE; resetScreen := false; isScientific := false;
     currentBase := dec; history := [] |}.

(** The state after 7, the addition key and 3. *)
Definition seven_plus_three : state :=
  {| currentInput := lit "3"; previousInput := lit "7";
     operation := Some (lit "+"); resetScreen := false;
     isScientific := false; currentBase := dec; history := [] |}.

End Examples.

(** ** The pools of page elements

    [RipplePool] and [LightSpotPool] keep the [div] elements of the effects
    for reuse.  An element is known by the order in which
    [document.createElement] made it; the styles written on it belong to
    the page.  The timer that [createEffect] and [createSpot] set recycles
    the element when it fires. *)

Module Pools.

Definition elem := nat.

Record pool := mkPool {
  free : list elem;
  active : list elem;
  timers : list elem;
  created : nat;
  maxPoolSize : nat
}.

(** The constructor and [initPool]: [this.pool] is a stack, its top is the
    head of [free]. *)
Definition initPool (size : nat) : pool :=
  {| free := rev (seq 0 size); active := []; timers := [];
     created := size; maxPoolSize := size |}.

Definition RipplePool : pool := initPool 20.
Definition LightSpotPool : pool := initPool 15.

(** [getRipple], and the first line of [createSpot]: the top of the stack,
    or a new element when the stack is empty. *)
Definition getRipple (p : pool) : elem * pool :=
  match free p with
  | r :: rest =>
      (r, {| free := rest; active := active p; timers := timers p;
             created := created p; maxPoolSize := maxPoolSize p |})
  | [] =>
      (created p,
       {| free := []; active := active p; timers := timers p;
          created := S (created p); maxPoolSize := maxPoolSize p |})
  end.

(** [returnRipple] and [returnSpot]: back on the stack if there is room. *)
Definition returnRipple (r : elem) (p : pool) : pool :=
  if (List.length (free p) <? maxPoolSize p)%nat
  then {| free := r :: free p; active := active p; timers := timers p;
          created := created p; maxPoolSize := maxPoolSize p |}
  else p.

(** [Set.prototype.add] and [Set.prototype.delete] on a set kept in
    insertion order. *)
Definition set_add (r : elem) (l : list elem) : list elem :=
  if existsb (Nat.eqb r) l then l else l ++ [r].

Definition set_delete (r : elem) (l : list elem) : list elem :=
  filter (fun x => negb (Nat.eqb r x)) l.

(** One timer of [r] less. *)
Fixpoint cancel (r : elem) (l : list elem) : list elem :=
  match l with
  | x :: l' => if Nat.eqb r x then l' else x :: cancel r l'
  | [] => []
  end.

(** [createEffect] and [createSpot], up to the timer they set. *)
Definition createEffect (p : pool) : pool :=
  let (r, p1) := getRipple p in
  {| free := free p1; active := set_add r (active p1);
     timers := timers p1 ++ [r];
     created := created p1; maxPoolSize := maxPoolSize p1 |}.

(** The timer of [r] fires: the element leaves the active set and is
    returned. *)
Definition recycle (r : elem) (p : pool) : pool :=
  returnRipple r
    {| free := free p; active := set_delete r (active p);
       timers := cancel r (timers p);
       created := created p; maxPoolSize := maxPoolSize p |}.

(** [cleanup] empties the active set; the timers stay. *)
Definition cleanup (p : pool) : pool :=
  {| free := free p; active := []; timers := timers p;
     created := created p; maxPoolSize := maxPoolSize p |}.

Inductive event :=
  | Create
  | Fire (r : elem)
  | Cleanup.

Definition step (p : pool) (e : event) : pool :=
  match e with
  | Create => createEffect p
  | Fire r => if existsb (Nat.eqb r) (timers p) then recycle r p else p
  | Cleanup => cleanup p
  end.

Inductive reachable (size : nat) : pool -> Prop :=
  | reachable_init : reachable size (initPool size)
  | reachable_step p e : reachable size p -> reachable size (step p e).

(** What every reachable pool satisfies. *)
Definition pool_ok (size : nat) (p : pool) : Prop :=
  maxPoolSize p = size
  /\ (List.length (free p) <= size)%nat
  /\ NoDup (free p ++ timers p)
  /\ (forall r, In r (free p ++ timers p) -> (r < created p)%nat).

End Pools.

(** ** The grid of buttons

    [initButtonGridMap] gives the button of index [i] the row [i / columns]
    and the column [i % columns]; [getNeighborButtons] collects the buttons
    at a distance of at most [radius], the button itself left out.  A
    button is known by its index among the [.btn] elements. *)

Module Grid.

Definition gridColumns (isScientific : bool) : nat :=
  if isScientific then 5 else 4.

Definition position (columns index : nat) : nat * nat :=
  (index / columns, index mod columns)%nat.

(** [Math.abs(a - b)] on indices. *)
Definition gap (a b : nat) : nat := ((a - b) + (b - a))%nat.

Definition distance (p q : nat * nat) : nat :=
  Nat.max (gap (fst p) (fst q)) (gap (snd p) (snd q)).

(** [getNeighborButtons] on a grid of [n] buttons; a button that is not in
    the map has no neighbours. *)
Definition getNeighborButtons (columns n button radius : nat) : list nat :=
  if (button <? n)%nat then
    filter (fun j => negb (Nat.eqb j button)
                     && (distance (position columns j)
                                  (position columns button) <=? radius)%nat)
           (seq 0 n)
  else [].

(** [buttons[k]] in [script.js]: [undefined] outside the list. *)
Definition item (n k : Z) : option Z :=
  if (0 <=? k) && (k <? n) then Some k else None.

(** [getAdjacentButtons] of [script.js], on the index that [indexOf] found
    (-1 when the button is not in the list); [%] is the remainder of
    JavaScript, with the sign of the dividend. *)
Definition getAdjacentButtons (n buttonIndex : Z) : list (option Z) :=
  (if 4 <=? buttonIndex then [item n (buttonIndex - 4)] else [])
  ++ (if buttonIndex <? n - 4 then [item n (buttonIndex + 4)] else [])
  ++ (if negb (Z.rem buttonIndex 4 =? 0)
      then [item n (buttonIndex - 1)] else [])
  ++ (if negb (Z.rem buttonIndex 4 =? 3)
      then [item n (buttonIndex + 1)] else []).

End Grid.

(** ** The sample windows of the optimization system

    [recordButtonResponse], [recordCalculationTime], [monitorFPS],
    [monitorMemory], [logPerformanceWarning] and [logError] all keep their
    samples the same way: push, then shift when the array has grown beyond
    its cap. *)

Module Telemetry.

Definition MAX_PERFORMANCE_SAMPLES : nat := 100.
Definition MAX_ERROR_SAMPLES : nat := 50.

Definition push_capped {A : Type} (cap : nat) (x : A) (l : list A) : list A :=
  let l' := l ++ [x] in
  if (cap <? List.length l')%nat then tl l' else l'.

End Telemetry.

(** ** The factorial of the older script

    [factorial(n)] of [script.js] has no guard: the loop runs while
    [i <= n].  [None] stands for a loop that is still running when the fuel
    is spent. *)

Module LegacyFactorial.

Fixpoint loop (fuel : nat) (n i result : number) : option number :=
  match fuel with
  | O => None
  | S f =>
      if leb i n then loop f n (add i (of_Z 1)) (mul result i)
      else Some result
  end.

Definition factorial (fuel : nat) (n : number) : option number :=
  if JsNumber.eqb n (of_Z 0) || JsNumber.eqb n (of_Z 1) then Some (of_Z 1)
  else loop fuel n (of_Z 2) (of_Z 1).

(** The ['!'] case of [scientificFunction]: the operand is the display, the
    result goes to the history and to the display. *)
Definition factorial_button (fuel : nat) (s : Legacy.state)
  : option Legacy.state :=
  let value := parseFloat (Legacy.currentInput s) in
  match factorial fuel value with
  | Some result =>
      Some {| Legacy.currentInput := toString result;
              Legacy.previousInput := Legacy.previousInput s;
              Legacy.operation := Legacy.operation s;
              Legacy.resetScreen := Legacy.resetScreen s;
              Legacy.calculationHistory :=
                Legacy.calculationHistory s
                ++ [lit "!(" ++ toString value ++ lit ") = "
                    ++ toString result] |}
  | None => None
  end.

End LegacyFactorial.

(** * Properties *)

(** ** Strings *)

Section StringFacts.

Lemma str_eqb_refl (a : str) : JsString.eqb a a = true.
Proof.
  induction a as [|x a IH]; simpl; [reflexivity|].
  now rewrite N.eqb_refl, IH.
Qed.

Lemma str_eqb_eq (a b : str) : JsString.eqb a b = true <-> a = b.
Proof.
  split.
  - revert b; induction a as [|x a IH]; intros [|y b]; simpl; try discriminate.
    + reflexivity.
    + intros H. apply andb_true_iff in H as [H1 H2].
      apply N.eqb_eq in H1. apply IH in H2. now subst.
  - intros ->. apply str_eqb_refl.
Qed.

Lemma str_eqb_neq (a b : str) : JsString.eqb a b = false <-> a <> b.
Proof.
  split.
  - intros H E. apply str_eqb_eq in E. congruence.
  - intros H. destruct (JsString.eqb a b) eqn:E; [|reflexivity].
    apply str_eqb_eq in E. contradiction.
Qed.

Lemma truthy_nonempty (v : str) : Calculator.truthy v = true <-> v <> [].
Proof. destruct v; simpl; split; congruence. Qed.

End StringFacts.

(** ** The state machine *)

Section StateMachine.

Import Calculator Spec.

Variable Math : MathLib.

Lemma calculate_without_operation (s : state) :
  operation s = None -> calculate Math s = (s, []).
Proof. intros H. unfold calculate. now rewrite H. Qed.

Lemma calculate_without_operand (s : state) :
  previousInput s = [] -> calculate Math s = (s, []).
Proof.
  intros H. unfold calculate. rewrite H. simpl.
  now rewrite orb_true_r.
Qed.

Lemma finish_calculation_clears (prev current result : number) (s : state) :
  operation (fst (finish_calculation prev current result s)) = None.
Proof. reflexivity. Qed.

(** The state [calculate] leaves has no pending operation, or is the state
    it started from. *)
Lemma calculate_cleared_or_same (s : state) :
  operation (fst (calculate Math s)) = None \/ fst (calculate Math s) = s.
Proof.
  unfold calculate.
  repeat match goal with
         | |- context [if ?b then _ else _] => destruct b
         end; simpl; auto.
Qed.

(** C9. [calculate] leaves the state as it is when no operation is pending
    or the left operand is empty, and a second call right after a first one
    changes nothing more. *)
Theorem calculate_noop_idempotent (s : state) :
  ((operation s = None \/ previousInput s = []) ->
   calculate Math s = (s, []))
  /\ fst (calculate Math (fst (calculate Math s))) = fst (calculate Math s).
Proof.
  split.
  - intros [H | H].
    + now apply calculate_without_operation.
    + now apply calculate_without_operand.
  - destruct (calculate_cleared_or_same s) as [H | H].
    + now rewrite (calculate_without_operation _ H).
    + now rewrite H.
Qed.


(** C3. With a division pending and a right operand that parses to zero,
    [calculate] reports the division by zero and returns the state it was
    given. *)
Theorem calculate_division_by_zero (s : state) :
  operation s = Some DIVIDE ->
  previousInput s <> [] ->
  JsNumber.eqb (parseFloat (currentInput s)) pos_zero = true ->
  calculate Math s = (s, [Notify DivisionByZero]).
Proof.
  intros Hop Hprev Hzero. unfold calculate.
  apply truthy_nonempty in Hprev.
  rewrite Hop, Hprev, Hzero. reflexivity.
Qed.


(** C1. On 7 + 3 = the display shows 10, but the entry of the history is
    built after [this.operation] has been set to [null]: it reads
    "7 null 3 = 10", and the operator is lost. *)
Theorem seven_plus_three_history :
  let s := run_all Math init
             [InputDigit (chr "7"); SetOperator (lit "+");
              InputDigit (chr "3"); Evaluate] in
  currentInput s = lit "10"
  /\ history s = [lit "7 null 3 = 10"]
  /\ ~ In (lit "7 + 3 = 10") (history s).
Proof.
  vm_compute. repeat split.
  intros [H | []]. discriminate H.
Qed.

(** Whatever the operands, the entry [calculate] adds names no operator. *)
Lemma finish_calculation_entry (prev current result : number) (s : state) :
  hd_error (history (fst (finish_calculation prev current result s)))
  = Some (toString prev ++ lit " null " ++ toString current ++ lit " = "
          ++ toString (parseFloat (toPrecision result 12))).
Proof.
  unfold finish_calculation, addToHistory. simpl.
  destruct (history s) as [|h t]; simpl; [reflexivity|].
  destruct (Nat.ltb _ _); reflexivity.
Qed.

End StateMachine.


(** ** Digit entry *)

Section DigitEntry.

Import Calculator Spec.

Lemma base_check_accepts (b : base) (d : char16) :
  decimal_digit d = true ->
  valid_digit b d = true -> base_check b [d] = None.
Proof.
  intros Hd Hv. destruct b; simpl in *; try reflexivity;
    unfold all_between; simpl; rewrite andb_true_r;
    unfold chr in *; simpl in *; now rewrite Hv.
Qed.


Lemma handleNumberButton_base (v : str) (s : state) :
  currentBase (fst (handleNumberButton v s)) = currentBase s.
Proof.
  unfold handleNumberButton.
  destruct (base_check (currentBase s) v); [reflexivity|].
  destruct (JsString.eqb (currentInput s) (lit "0") || resetScreen s);
    reflexivity.
Qed.


Lemma handleNumberButton_replaces (d : char16) (s : state) :
  decimal_digit d = true ->
  valid_digit (currentBase s) d = true ->
  resetScreen s = true \/ currentInput s = lit "0" ->
  fst (handleNumberButton [d] s) = set_resetScreen false (set_currentInput [d] s).
Proof.
  intros Hd Hv H. unfold handleNumberButton.
  rewrite (base_check_accepts _ _ Hd Hv).
  destruct H as [H | H]; rewrite H.
  - now rewrite orb_true_r.
  - reflexivity.
Qed.

Lemma handleNumberButton_appends (d : char16) (s : state) :
  decimal_digit d = true ->
  valid_digit (currentBase s) d = true ->
  resetScreen s = false -> currentInput s <> lit "0" ->
  fst (handleNumberButton [d] s) = set_currentInput (currentInput s ++ [d]) s.
Proof.
  intros Hd Hv H1 H2. unfold handleNumberButton.
  rewrite (base_check_accepts _ _ Hd Hv), H1.
  apply str_eqb_neq in H2. now rewrite H2.
Qed.




End DigitEntry.

(** ** The text of a Number is never empty *)

Section NonEmptyText.

Lemma digits_aux_nonempty (fuel : nat) (R n : Z) (acc : list Z) :
  acc <> [] \/ fuel <> O -> digits_aux fuel R n acc <> [].
Proof.
  revert n acc. induction fuel as [|f IH]; intros n acc H; simpl.
  - destruct H as [H | H]; [exact H | congruence].
  - destruct (n <? R); [discriminate|].
    apply IH. left. discriminate.
Qed.

Lemma digit_string_nonempty (R n : Z) : digit_string R n <> [].
Proof.
  unfold digit_string, digits. intros H. apply map_eq_nil in H.
  revert H. apply digits_aux_nonempty. right. discriminate.
Qed.

Lemma app_nonempty_r (u v : str) : v <> [] -> u ++ v <> [].
Proof. intros H E. apply app_eq_nil in E as [_ E]. contradiction. Qed.

Lemma app_nonempty_l (u v : str) : u <> [] -> u ++ v <> [].
Proof. intros H E. apply app_eq_nil in E as [E _]. contradiction. Qed.

Lemma format_shortest_nonempty (n k s : Z) : format_shortest n k s <> [].
Proof.
  unfold format_shortest.
  repeat match goal with
         | |- context [if ?b then _ else _] => destruct b
         end; try discriminate.
  - apply app_nonempty_l, digit_string_nonempty.
  - apply app_nonempty_r. discriminate.
Qed.

Lemma toString_nonempty (x : number) : toString x <> [].
Proof.
  destruct x as [sg|sg| |sg m e]; simpl; try discriminate.
  - destruct sg; discriminate.
  - destruct (shortest m e) as [[n k] s].
    apply app_nonempty_r, format_shortest_nonempty.
Qed.

Lemma toStringRadix_nonempty (x : number) (R : Z) : toStringRadix x R <> [].
Proof.
  unfold toStringRadix. destruct (R =? 10); [apply toString_nonempty|].
  destruct x as [sg|sg| |sg m e]; try apply toString_nonempty.
  destruct (fraction m e) as [a b].
  apply app_nonempty_r, app_nonempty_l, digit_string_nonempty.
Qed.

Lemma convertBase_nonempty (v : str) (f t : Calculator.base) :
  Calculator.convertBase v f t <> [].
Proof.
  unfold Calculator.convertBase.
  destruct (isNaN _); [discriminate|].
  destruct t; try apply toStringRadix_nonempty.
  unfold toUpperCase. intros H. apply map_eq_nil in H.
  revert H. apply toStringRadix_nonempty.
Qed.

End NonEmptyText.

(** ** The display *)

Section Display.

Import Calculator Spec.

Variable Math : MathLib.

Ltac state_simpl :=
  cbn [fst snd run clear deleteLastCharacter toggleMode
       handleScientificButton
       currentInput previousInput operation resetScreen isScientific
       currentBase history set_currentInput set_previousInput set_operation
       set_resetScreen set_isScientific set_history addToHistory].

Ltac split_ifs :=
  repeat match goal with
         | |- context [if ?b then _ else _] => destruct b
         end.

Lemma scientificCalculation_nonempty (func value : str) :
  value <> [] -> scientificCalculation Math func value <> [].
Proof.
  intros H. unfold scientificCalculation.
  split_ifs; try apply toString_nonempty; try discriminate; exact H.
Qed.

Lemma calculate_nonempty (s : state) :
  currentInput s <> [] -> currentInput (fst (calculate Math s)) <> [].
Proof.
  intros H. unfold calculate, finish_calculation.
  split_ifs; state_simpl; try apply toString_nonempty; exact H.
Qed.

Lemma removelast_nonempty (v : str) :
  (1 < List.length v)%nat -> removelast v <> [].
Proof.
  destruct v as [|a [|b v]]; simpl; intros H; try lia. discriminate.
Qed.

Lemma step_nonempty (s : state) (a : action) :
  currentInput s <> [] -> currentInput (step Math s a) <> [].
Proof.
  intros H. unfold step. destruct a; state_simpl.
  - unfold handleNumberButton.
    destruct (base_check _ _); state_simpl; [exact H|].
    destruct (_ || _); state_simpl; [discriminate|].
    apply app_nonempty_l, H.
  - unfold handleOperatorButton.
    destruct (JsString.eqb op (lit "%")); state_simpl;
      [apply toString_nonempty|].
    destruct (_ && _).
    + pose proof (calculate_nonempty s H) as H'.
      destruct (calculate Math s); exact H'.
    + exact H.
  - now apply calculate_nonempty.
  - discriminate.
  - destruct (Nat.ltb _ _) eqn:E; state_simpl; [|discriminate].
    apply removelast_nonempty. now apply Nat.ltb_lt.
  - unfold addDecimal. destruct (negb _); state_simpl; [|exact H].
    apply app_nonempty_l, H.
  - destruct (isScientific s); state_simpl; [|exact H].
    now apply scientificCalculation_nonempty.
  - unfold handleMathSymbol. state_simpl.
    split_ifs; state_simpl; try apply toString_nonempty; try exact H.
    + now apply scientificCalculation_nonempty.
    + apply scientificCalculation_nonempty, toString_nonempty.
  - unfold handleConversion.
    destruct (negb _); state_simpl; [exact H|].
    destruct c; state_simpl; try exact H; apply convertBase_nonempty.
  - exact H.
Qed.

(** C2. In every state the page can reach, and after every operation on
    it, the display is a string of one character at least. *)
Theorem currentInput_never_empty (s : state) (a : action) :
  reachable Math s ->
  currentInput s <> [] /\ currentInput (step Math s a) <> [].
Proof.
  intros H.
  assert (Hs : currentInput s <> []).
  { induction H as [|s0 a0 _ IH]; [discriminate | now apply step_nonempty]. }
  split; [exact Hs | now apply step_nonempty].
Qed.

End Display.

(** The logarithm of the fresh display, 0, in scientific mode: the display
    becomes the error sentinel, which is no numeral of any base. *)
Lemma error_sentinel_displayed :
  let s := Calculator.run_all math_unused Calculator.init
             [Calculator.ToggleMode; Calculator.Scientific (lit "log")] in
  Calculator.reachable math_unused s
  /\ Calculator.currentInput s = Calculator.ERROR
  /\ Spec.numeral_chars (Calculator.currentBase s) (Calculator.currentInput s)
     = false.
Proof.
  split; [|split].
  - apply (Calculator.reachable_step math_unused _
             (Calculator.Scientific (lit "log"))).
    apply (Calculator.reachable_step math_unused _ Calculator.ToggleMode).
    apply Calculator.reachable_init.
  - reflexivity.
  - reflexivity.
Qed.

(** ** Scientific functions *)

Section Scientific.

Import Calculator Spec.

Variable Math : MathLib.

Lemma not_positive (x : number) :
  leb x pos_zero = true -> isNaN x = false /\ ltb pos_zero x = false.
Proof.
  destruct x as [sg|sg| |sg m e]; try destruct sg; simpl;
    try discriminate; auto.
Qed.

Lemma negative_not_above_zero (x : number) :
  ltb x pos_zero = true -> isNaN x = false /\ leb pos_zero x = false.
Proof.
  destruct x as [sg|sg| |sg m e]; try destruct sg; simpl;
    try discriminate; auto.
Qed.

Lemma scientific_log (value : str) :
  scientificCalculation Math (lit "log") value
  = if isNaN (parseFloat value) then ERROR
    else if ltb pos_zero (parseFloat value)
         then toString (Math_log10 Math (parseFloat value)) else ERROR.
Proof. reflexivity. Qed.

Lemma scientific_ln (value : str) :
  scientificCalculation Math (lit "ln") value
  = if isNaN (parseFloat value) then ERROR
    else if ltb pos_zero (parseFloat value)
         then toString (Math_log Math (parseFloat value)) else ERROR.
Proof. reflexivity. Qed.

Lemma scientific_sqrt (value : str) :
  scientificCalculation Math (lit "sqrt") value
  = if isNaN (parseFloat value) then ERROR
    else if leb pos_zero (parseFloat value)
         then toString (sqrt (parseFloat value)) else ERROR.
Proof. reflexivity. Qed.

Lemma scientific_factorial (value : str) :
  scientificCalculation Math (lit "factorial") value
  = if isNaN (parseFloat value) then ERROR
    else if ltb (parseFloat value) pos_zero
            || negb (isInteger (parseFloat value)) then ERROR
    else if ltb (of_Z 100) (parseFloat value) then TOO_LARGE
    else toString
           (snd (factorial_loop 100 (parseFloat value) (of_Z 2) (of_Z 1))).
Proof. reflexivity. Qed.

(** C7. The logarithms answer the error sentinel for every operand that is
    zero or negative; the square root answers it for every negative
    operand, and takes zero: the root of "-1" is the sentinel, the root of
    "9" is "3" and the root of "0" is "0". *)
Theorem scientific_domain (value : str) :
  (leb (parseFloat value) pos_zero = true ->
   scientificCalculation Math (lit "log") value = ERROR
   /\ scientificCalculation Math (lit "ln") value = ERROR)
  /\ (ltb (parseFloat value) pos_zero = true ->
      scientificCalculation Math (lit "sqrt") value = ERROR)
  /\ scientificCalculation Math (lit "sqrt") (lit "-1") = ERROR
  /\ scientificCalculation Math (lit "sqrt") (lit "9") = lit "3"
  /\ scientificCalculation Math (lit "sqrt") (lit "0") = lit "0".
Proof.
  split; [|split; [|split; [|split]]].
  - intros H. apply not_positive in H as [H1 H2].
    now rewrite scientific_log, scientific_ln, H1, H2.
  - intros H. apply negative_not_above_zero in H as [H1 H2].
    now rewrite scientific_sqrt, H1, H2.
  - vm_compute. reflexivity.
  - vm_compute. reflexivity.
  - vm_compute. reflexivity.
Qed.

End Scientific.

(** The square root of "0" is "0", not the error sentinel, although 0 is
    not positive. *)
Lemma sqrt_of_zero_is_zero :
  leb (parseFloat (lit "0")) pos_zero = true
  /\ Calculator.scientificCalculation math_unused (lit "sqrt") (lit "0")
     = lit "0"
  /\ Calculator.scientificCalculation math_unused (lit "sqrt") (lit "0")
     <> Calculator.ERROR.
Proof.
  split; [|split].
  - reflexivity.
  - vm_compute. reflexivity.
  - vm_compute. discriminate.
Qed.

(** ** The factorial *)

Section Factorial.

Import Calculator Spec.

Variable Math : MathLib.

Lemma forallb_below (P : nat -> bool) (k : nat) :
  forallb P (seq 0 k) = true -> forall n, (n < k)%nat -> P n = true.
Proof.
  intros H n Hn. rewrite forallb_forall in H. apply H, in_seq. lia.
Qed.

(** For every operand that passes the two guards the loop leaves through
    its test [i <= num]: the hundred rounds it is given are enough. *)
Lemma factorial_loop_exits (n : nat) :
  (n <= 100)%nat ->
  leb (fst (factorial_loop 100 (of_Z (Z.of_nat n)) (of_Z 2) (of_Z 1)))
      (of_Z (Z.of_nat n)) = false.
Proof.
  intros H. apply negb_true_iff.
  revert n H.
  enough (forall n, (n < 101)%nat ->
            negb (leb (fst (factorial_loop 100 (of_Z (Z.of_nat n))
                              (of_Z 2) (of_Z 1)))
                      (of_Z (Z.of_nat n))) = true) as E
    by (intros n H; apply E; lia).
  apply forallb_below. vm_compute. reflexivity.
Qed.

Lemma factorial_exact (n : nat) (value : str) :
  (n <= 21)%nat -> parseFloat value = of_Z (Z.of_nat n) ->
  scientificCalculation Math (lit "factorial") value = decimal (factorial n).
Proof.
  intros H E. rewrite scientific_factorial, E. clear E value.
  apply str_eqb_eq. revert n H.
  enough (forall n, (n < 22)%nat ->
            (fun n =>
               JsString.eqb
                 (if isNaN (of_Z (Z.of_nat n)) then ERROR
                  else if ltb (of_Z (Z.of_nat n)) pos_zero
                          || negb (isInteger (of_Z (Z.of_nat n))) then ERROR
                  else if ltb (of_Z 100) (of_Z (Z.of_nat n)) then TOO_LARGE
                  else toString
                         (snd (factorial_loop 100 (of_Z (Z.of_nat n))
                                 (of_Z 2) (of_Z 1))))
                 (decimal (factorial n))) n = true) as E
    by (intros n H; apply E; lia).
  apply forallb_below. vm_compute. reflexivity.
Qed.

Lemma factorial_rounded (n : nat) (value : str) :
  (22 <= n <= 100)%nat -> parseFloat value = of_Z (Z.of_nat n) ->
  exists r,
    scientificCalculation Math (lit "factorial") value = toString r
    /\ approximates 50 r (factorial n) = true
    /\ toString r <> decimal (factorial n).
Proof.
  intros H E. rewrite scientific_factorial, E. clear E value.
  exists (snd (factorial_loop 100 (of_Z (Z.of_nat n)) (of_Z 2) (of_Z 1))).
  enough (forall n, (n < 101)%nat ->
            (fun n =>
               let num := of_Z (Z.of_nat n) in
               let r := snd (factorial_loop 100 num (of_Z 2) (of_Z 1)) in
               (n <? 22)%nat
               || (negb (isNaN num)
                   && negb (ltb num pos_zero || negb (isInteger num))
                   && negb (ltb (of_Z 100) num)
                   && approximates 50 r (factorial n)
                   && negb (JsString.eqb (toString r)
                                         (decimal (factorial n))))) n
            = true) as C.
  { specialize (C n ltac:(lia)). cbv beta zeta in C.
    apply orb_true_iff in C as [C | C].
    - apply Nat.ltb_lt in C. lia.
    - repeat (apply andb_true_iff in C as [C ?]).
      apply negb_true_iff in C.
      repeat match goal with
             | X : negb _ = true |- _ => apply negb_true_iff in X
             end.
      rewrite C.
      match goal with X : _ || _ = false |- _ => rewrite X end.
      match goal with X : ltb (of_Z 100) _ = false |- _ => rewrite X end.
      repeat split; [assumption|].
      now apply str_eqb_neq. }
  apply forallb_below. vm_compute. reflexivity.
Qed.

(** C8. The factorial answers the error sentinel for a negative operand
    and for one that is not an integer, the sentinel "too large" for an
    integer above 100, and otherwise the text of the product computed in
    binary64: the decimal numeral of the factorial up to 21, and from 22 on
    a Number within one part in 2^50 of the factorial, written with an
    exponent.  The factorial of "101" is "too large", that of "5" is
    "120". *)
Theorem factorial_cases (value : str) :
  (ltb (parseFloat value) pos_zero = true
   \/ isInteger (parseFloat value) = false ->
   scientificCalculation Math (lit "factorial") value = ERROR)
  /\ (isInteger (parseFloat value) = true ->
      ltb (parseFloat value) pos_zero = false ->
      ltb (of_Z 100) (parseFloat value) = true ->
      scientificCalculation Math (lit "factorial") value = TOO_LARGE)
  /\ (forall n, (n <= 21)%nat -> parseFloat value = of_Z (Z.of_nat n) ->
      scientificCalculation Math (lit "factorial") value
      = decimal (factorial n))
  /\ (forall n, (22 <= n <= 100)%nat ->
      parseFloat value = of_Z (Z.of_nat n) ->
      exists r,
        scientificCalculation Math (lit "factorial") value = toString r
        /\ approximates 50 r (factorial n) = true
        /\ toString r <> decimal (factorial n))
  /\ scientificCalculation Math (lit "factorial") (lit "101") = TOO_LARGE
  /\ scientificCalculation Math (lit "factorial") (lit "5") = lit "120".
Proof.
  split; [|split; [|split; [|split; [|split]]]].
  - intros H. rewrite scientific_factorial.
    destruct (isNaN (parseFloat value)); [reflexivity|].
    destruct H as [H | H]; rewrite H; cbn [negb orb]; [reflexivity|].
    now rewrite orb_true_r.
  - intros H1 H2 H3. rewrite scientific_factorial, H1, H2, H3.
    destruct (parseFloat value); try discriminate H1; reflexivity.
  - intros n H E. now apply factorial_exact.
  - intros n H E. now apply factorial_rounded.
  - vm_compute. reflexivity.
  - vm_compute. reflexivity.
Qed.

End Factorial.

(** The factorial of "22" is written with an exponent and sixteen digits;
    it is not the decimal numeral of 22!. *)
Lemma factorial_of_22_rounded :
  Calculator.scientificCalculation math_unused (lit "factorial") (lit "22")
  = lit "1.1240007277776077e+21"
  /\ Spec.decimal (Spec.factorial 22) = lit "1124000727777607680000"
  /\ Calculator.scientificCalculation math_unused (lit "factorial") (lit "22")
     <> Spec.decimal (Spec.factorial 22).
Proof.
  split; [|split].
  - vm_compute. reflexivity.
  - vm_compute. reflexivity.
  - vm_compute. discriminate.
Qed.
(** ** Digits *)

Section Digits.

Variable R : Z.
Hypothesis radix_ge_2 : 2 <= R.

Lemma digits_aux_acc (fuel : nat) (n : Z) (acc : list Z) :
  digits_aux fuel R n acc = digits_aux fuel R n [] ++ acc.
Proof.
  revert n acc. induction fuel as [|f IH]; intros n acc; simpl.
  - reflexivity.
  - destruct (n <? R); [reflexivity|].
    rewrite IH, (IH _ [n mod R]), <- app_assoc. reflexivity.
Qed.

Lemma digits_aux_S (f : nat) (n : Z) (acc : list Z) :
  digits_aux (S f) R n acc
  = if n <? R then n :: acc else digits_aux f R (n / R) (n mod R :: acc).
Proof. reflexivity. Qed.

Lemma half_bound (n b : Z) : R <= n -> n < 2 * b -> 0 <= n / R < b.
Proof.
  intros H1 H2. split; [apply Z.div_pos; lia|].
  apply Z.le_lt_trans with (n / 2).
  - apply Z.div_le_compat_l; lia.
  - apply Z.div_lt_upper_bound; lia.
Qed.

(** Fuel beyond the binary length of [n] is not used. *)
Lemma digits_aux_fuel (f1 : nat) :
  forall (f2 : nat) (n : Z) (acc : list Z),
  0 <= n < 2 ^ Z.of_nat (S f1) -> n < 2 ^ Z.of_nat (S f2) ->
  digits_aux (S f1) R n acc = digits_aux (S f2) R n acc.
Proof.
  induction f1 as [|f1 IH]; intros f2 n acc H1 H2;
    rewrite (digits_aux_S _ n), (digits_aux_S f2);
    destruct (n <? R) eqn:E; try reflexivity; apply Z.ltb_ge in E.
  - change (2 ^ Z.of_nat 1) with 2 in H1. lia.
  - destruct f2 as [|f2].
    + change (2 ^ Z.of_nat 1) with 2 in H2. lia.
    + rewrite Nat2Z.inj_succ, Z.pow_succ_r in H1, H2 by lia.
      apply IH; [|apply half_bound]; try apply half_bound; lia.
Qed.

Lemma digits_small (n : Z) : n < R -> digits R n = [n].
Proof.
  intros H. unfold digits. rewrite digits_aux_S.
  apply Z.ltb_lt in H. now rewrite H.
Qed.

Lemma log2_fuel (n : Z) :
  0 <= n -> n < 2 ^ Z.of_nat (S (Z.to_nat (Z.log2 n))).
Proof.
  intros H. rewrite Nat2Z.inj_succ, Z2Nat.id by apply Z.log2_nonneg.
  destruct (Z.eq_dec n 0) as [E | Hn]; [subst n; reflexivity|].
  apply Z.log2_spec. lia.
Qed.

Lemma digits_step (n : Z) :
  R <= n -> digits R n = digits R (n / R) ++ [n mod R].
Proof.
  intros H. unfold digits at 1. rewrite digits_aux_S.
  assert (E : (n <? R) = false) by (apply Z.ltb_ge; lia).
  rewrite E, digits_aux_acc. f_equal.
  assert (Hlog : 1 <= Z.log2 n).
  { apply Z.log2_le_pow2; [lia|]. change (2 ^ 1) with 2. lia. }
  destruct (Z.to_nat (Z.log2 n)) as [|f] eqn:Ef; [lia|].
  unfold digits. apply digits_aux_fuel.
  - apply half_bound; [lia|].
    rewrite <- Z.pow_succ_r by lia.
    rewrite <- Nat2Z.inj_succ, <- Ef. apply log2_fuel. lia.
  - apply log2_fuel. apply Z.div_pos; lia.
Qed.

Lemma of_digits_snoc (ds : list Z) (d : Z) :
  of_digits R (ds ++ [d]) = of_digits R ds * R + d.
Proof. unfold of_digits. now rewrite fold_left_app. Qed.

(** Reading the digits of [n] gives [n] back. *)
Lemma of_digits_digits (n : Z) : 0 <= n -> of_digits R (digits R n) = n.
Proof.
  intros H. pattern n. apply Zlt_0_ind; [|exact H].
  clear n H. intros n IH Hn.
  destruct (Z_lt_le_dec n R) as [Hs | Hl].
  - now rewrite digits_small.
  - rewrite digits_step, of_digits_snoc by lia.
    rewrite IH.
    + rewrite Z.mul_comm. symmetry. apply Z.div_mod. lia.
    + split; [apply Z.div_pos; lia|].
      apply Z.div_lt; lia.
Qed.

Lemma digits_in_range (n : Z) :
  0 <= n -> Forall (fun d => 0 <= d < R) (digits R n).
Proof.
  intros H. pattern n. apply Zlt_0_ind; [|exact H].
  clear n H. intros n IH Hn.
  destruct (Z_lt_le_dec n R) as [Hs | Hl].
  - rewrite digits_small by lia. constructor; [lia|constructor].
  - rewrite digits_step by lia. apply Forall_app. split.
    + apply IH. split; [apply Z.div_pos; lia|apply Z.div_lt; lia].
    + constructor; [|constructor]. apply Z.mod_pos_bound. lia.
Qed.

(** A number of [D] digits lies between [R^(D-1)] and [R^D]. *)
Lemma digits_length (n : Z) :
  0 < n ->
  let D := Z.of_nat (List.length (digits R n)) in
  1 <= D /\ R ^ (D - 1) <= n < R ^ D.
Proof.
  intros H. assert (H0 : 0 <= n) by lia. revert H.
  pattern n. apply Zlt_0_ind; [|exact H0].
  clear n H0. intros n IH Hn Hpos.
  destruct (Z_lt_le_dec n R) as [Hs | Hl].
  - rewrite digits_small by lia. cbn [List.length].
    change (Z.of_nat 1) with 1. cbv zeta.
    change (1 - 1) with 0. rewrite Z.pow_0_r, Z.pow_1_r. lia.
  - rewrite digits_step by lia. rewrite length_app, Nat2Z.inj_add.
    cbn [List.length]. change (Z.of_nat 1) with 1.
    assert (Hq : 0 < n / R) by (apply Z.div_str_pos; lia).
    destruct (IH (n / R)) as (HD & Hlo & Hhi); [|exact Hq|].
    { split; [lia | apply Z.div_lt; lia]. }
    set (D := Z.of_nat (List.length (digits R (n / R)))) in *.
    cbv zeta. split; [lia|].
    replace (D + 1 - 1) with (Z.succ (D - 1)) by lia.
    replace (D + 1) with (Z.succ D) by lia.
    rewrite !Z.pow_succ_r by lia.
    pose proof (Z.div_mod n R ltac:(lia)) as Hdm.
    pose proof (Z.mod_pos_bound n R ltac:(lia)) as Hm.
    split; nia.
Qed.

(** Multiplying by a power of the radix appends zeros. *)
Lemma digits_shift (m : Z) (t : nat) :
  0 < m -> digits R (m * R ^ Z.of_nat t) = digits R m ++ repeat 0 t.
Proof.
  intros H. induction t as [|t IH].
  - simpl. now rewrite Z.mul_1_r, app_nil_r.
  - rewrite Nat2Z.inj_succ, Z.pow_succ_r by lia.
    assert (Hp : 0 < R ^ Z.of_nat t) by (apply Z.pow_pos_nonneg; lia).
    replace (m * (R * R ^ Z.of_nat t)) with (m * R ^ Z.of_nat t * R) by ring.
    assert (Hm : 1 <= m * R ^ Z.of_nat t) by nia.
    rewrite digits_step by nia.
    rewrite Z.div_mul, Z.mod_mul, IH by lia.
    rewrite <- app_assoc. f_equal.
    change [0] with (repeat 0 1). rewrite <- repeat_app.
    f_equal. lia.
Qed.

End Digits.

(** ** Reading a string of digits *)

Section ReadDigits.

(** The character of a digit below 16, in lower or in upper case, reads as
    that digit and is neither white space, nor a sign, nor the mark of a
    hexadecimal prefix. *)
Lemma digit_char_facts (d : Z) (c : char16) :
  0 <= d < 16 ->
  c = digit_char d \/ c = upper_char (digit_char d) ->
  digit_value c = Some d
  /\ is_space c = false
  /\ N.eqb c (chr "-") = false /\ N.eqb c (chr "+") = false
  /\ N.eqb (chr "x") c = false /\ N.eqb (chr "X") c = false.
Proof.
  intros Hd Hc.
  assert (E : d = 0 \/ d = 1 \/ d = 2 \/ d = 3 \/ d = 4 \/ d = 5 \/ d = 6
              \/ d = 7 \/ d = 8 \/ d = 9 \/ d = 10 \/ d = 11 \/ d = 12
              \/ d = 13 \/ d = 14 \/ d = 15) by lia.
  repeat (destruct E as [E | E]; [subst d; destruct Hc; subst c;
                                  repeat split; reflexivity|]).
  subst d; destruct Hc; subst c; repeat split; reflexivity.
Qed.

Lemma startsWith_two (a b c0 c1 : char16) (s : str) :
  startsWith (c0 :: c1 :: s) [a; b] = N.eqb a c0 && N.eqb b c1.
Proof. destruct s; cbn [startsWith]; now rewrite andb_true_r. Qed.

Variable R : Z.
Hypothesis radix_range : 2 <= R <= 16.

Variable glyph : Z -> char16.
Hypothesis glyph_case :
  forall d, glyph d = digit_char d \/ glyph d = upper_char (digit_char d).

Lemma glyph_digit (d : Z) : 0 <= d < R -> digit_in R (glyph d) = Some d.
Proof.
  intros H. unfold digit_in.
  destruct (digit_char_facts d (glyph d)) as [-> _]; [lia|apply glyph_case|].
  assert (E : (d <? R) = true) by (apply Z.ltb_lt; lia).
  now rewrite E.
Qed.

Lemma take_digits_glyphs (ds : list Z) :
  Forall (fun d => 0 <= d < R) ds ->
  take_digits R (List.map glyph ds) = (ds, []).
Proof.
  induction 1 as [|d ds Hd _ IH]; simpl; [reflexivity|].
  now rewrite glyph_digit, IH.
Qed.

(** [parseInt] reads a string of digits of the radix as the integer they
    write. *)
Lemma parseInt_glyphs (ds : list Z) :
  ds <> [] -> Forall (fun d => 0 <= d < R) ds ->
  parseInt (List.map glyph ds) R = of_Z (of_digits R ds).
Proof.
  intros Hne Hds. destruct ds as [|d0 ds]; [congruence|].
  inversion Hds as [|? ? Hd0 Hds']; subst.
  destruct (digit_char_facts d0 (glyph d0)) as (_ & Hsp & Hm & Hp & Hx & HX);
    [lia | apply glyph_case |].
  unfold parseInt. cbn [List.map trimStart]. rewrite Hsp.
  cbn [take_sign]. rewrite Hm, Hp.
  assert (E0 : (R =? 0) = false) by (apply Z.eqb_neq; lia).
  assert (E2 : (R <? 2) = false) by (apply Z.ltb_ge; lia).
  assert (E36 : (36 <? R) = false) by (apply Z.ltb_ge; lia).
  rewrite E0, E2, E36. cbn [negb andb orb].
  assert (Hno : (startsWith (glyph d0 :: List.map glyph ds) (lit "0x")
                 || startsWith (glyph d0 :: List.map glyph ds) (lit "0X"))
                = false).
  { change (lit "0x") with [chr "0"; chr "x"].
    change (lit "0X") with [chr "0"; chr "X"].
    destruct ds as [|d1 ds]; cbn [List.map].
    - cbn [startsWith]. now rewrite !andb_false_r.
    - inversion Hds' as [|? ? Hd1 _]; subst.
      destruct (digit_char_facts d1 (glyph d1)) as (_ & _ & _ & _ & Hx1 & HX1);
        [lia | apply glyph_case |].
      rewrite !startsWith_two, Hx1, HX1. now rewrite !andb_false_r. }
  rewrite Hno, andb_false_r.
  change (glyph d0 :: List.map glyph ds) with (List.map glyph (d0 :: ds)).
  rewrite take_digits_glyphs by assumption.
  reflexivity.
Qed.

End ReadDigits.

(** ** Integers as Numbers *)

Section IntegerNumbers.

Lemma digits2_size (p : positive) : digits2_pos p = Pos.size p.
Proof. induction p; simpl; congruence. Qed.

Lemma iter_xO_digits (p k : positive) :
  digits2_pos (Pos.iter xO p k) = (digits2_pos p + k)%positive.
Proof.
  induction k as [|k IH] using Pos.peano_ind.
  - simpl. now rewrite Pos.add_1_r.
  - rewrite Pos.iter_succ. simpl. rewrite IH. lia.
Qed.

Lemma iter_xO_value (p k : positive) :
  Zpos (Pos.iter xO p k) = Zpos p * 2 ^ Zpos k.
Proof.
  induction k as [|k IH] using Pos.peano_ind.
  - simpl. lia.
  - rewrite Pos.iter_succ, Pos2Z.inj_xO, IH, Pos2Z.inj_succ.
    rewrite Z.pow_succ_r by lia. ring.
Qed.

Lemma size_bounds (p : positive) :
  2 ^ (Zpos (digits2_pos p) - 1) <= Zpos p < 2 ^ Zpos (digits2_pos p).
Proof.
  rewrite digits2_size. split.
  - pose proof (Pos.size_le p) as H.
    apply Pos2Z.pos_le_pos in H. rewrite Pos2Z.inj_pow in H.
    replace (Zpos (Pos.size p)) with (Z.succ (Zpos (Pos.size p) - 1)) in H
      by lia.
    rewrite Z.pow_succ_r in H by lia. lia.
  - pose proof (Pos.size_gt p) as H.
    apply Pos2Z.pos_lt_pos in H. now rewrite Pos2Z.inj_pow in H.
Qed.

Lemma fexp_normal (d : Z) : -1021 <= d -> fexp prec emax d = d - 53.
Proof. intros H. unfold fexp, SpecFloat.emin, prec, emax. lia. Qed.

Lemma shr_exponent (mrs : shr_record) (e n : Z) :
  snd (shr mrs e n) = e + Z.max 0 n.
Proof. destruct n; simpl; lia. Qed.

(** A mantissa of 53 bits with an exponent in range is already rounded. *)
Lemma canonical_round (m : positive) (e : Z) :
  Zpos (digits2_pos m) = 53 -> -1074 <= e <= 971 ->
  binary_round_aux prec emax false (Zpos m) e loc_Exact
  = S754_finite false m e.
Proof.
  intros Hd He.
  assert (Hshift : fexp prec emax (Zdigits2 (Zpos m) + e) - e = 0).
  { cbn [Zdigits2]. rewrite Hd, fexp_normal by lia. lia. }
  unfold binary_round_aux, shr_fexp. rewrite Hshift.
  cbn [shr shr_record_of_loc shr_m loc_of_shr_record round_nearest_even].
  rewrite Hshift. cbn [shr shr_record_of_loc shr_m].
  assert (E : (e <=? emax - prec) = true)
    by (apply Z.leb_le; unfold emax, prec; lia).
  now rewrite E.
Qed.

(** An integer below 2^53 is a Number, exactly. *)
Lemma of_Z_small (n : Z) :
  0 < n < 2 ^ 53 ->
  exists m e, of_Z n = S754_finite false m e
              /\ -52 <= e <= 0 /\ Zpos m = n * 2 ^ (- e).
Proof.
  intros [Hpos Hlt]. destruct n as [|p|p]; try lia.
  pose proof (size_bounds p) as [Hlo _].
  assert (Hd : Zpos (digits2_pos p) <= 53).
  { destruct (Z_le_gt_dec (Zpos (digits2_pos p)) 53) as [H|H]; [exact H|].
    assert (2 ^ 53 <= 2 ^ (Zpos (digits2_pos p) - 1))
      by (apply Z.pow_le_mono_r; lia).
    lia. }
  unfold of_Z, binary_normalize, binary_round.
  rewrite fexp_normal by lia.
  unfold shl_align.
  destruct (Zpos (digits2_pos p) + 0 - 53 - 0) as [|k|k] eqn:Ek; try lia.
  - exists p, 0. rewrite canonical_round by lia.
    repeat split; try lia.
  - exists (Pos.iter xO p k), (Zpos (digits2_pos p) + 0 - 53).
    rewrite canonical_round.
    + repeat split; try lia. rewrite iter_xO_value. f_equal. f_equal. lia.
    + rewrite iter_xO_digits. lia.
    + lia.
Qed.

(** An integer from 2^53 on is stored with a positive exponent, if it is
    stored as a finite Number at all. *)
Lemma of_Z_large (n : Z) (sg : bool) (m : positive) (e : Z) :
  2 ^ 53 <= n -> of_Z n = S754_finite sg m e -> 1 <= e.
Proof.
  intros Hn. destruct n as [|p|p]; try lia.
  pose proof (size_bounds p) as [_ Hhi].
  assert (Hd : 54 <= Zpos (digits2_pos p)).
  { destruct (Z_le_gt_dec 54 (Zpos (digits2_pos p))) as [H|H]; [exact H|].
    assert (2 ^ Zpos (digits2_pos p) <= 2 ^ 53)
      by (apply Z.pow_le_mono_r; lia).
    lia. }
  unfold of_Z, binary_normalize, binary_round.
  rewrite fexp_normal by lia.
  unfold shl_align.
  destruct (Zpos (digits2_pos p) + 0 - 53 - 0) as [|k|k] eqn:Ek; try lia.
  unfold binary_round_aux.
  destruct (shr_fexp prec emax (Zpos p) 0 loc_Exact) as [mrs1 e1] eqn:E1.
  destruct (shr_fexp prec emax
              (round_nearest_even (shr_m mrs1) (loc_of_shr_record mrs1))
              e1 loc_Exact) as [mrs2 e2] eqn:E2.
  assert (H1 : 1 <= e1).
  { apply (f_equal snd) in E1. unfold shr_fexp in E1.
    rewrite shr_exponent in E1. cbn [snd Zdigits2] in E1.
    rewrite fexp_normal in E1 by lia. lia. }
  assert (H2 : e1 <= e2).
  { apply (f_equal snd) in E2. unfold shr_fexp in E2.
    rewrite shr_exponent in E2. cbn [snd] in E2. lia. }
  destruct (shr_m mrs2); try discriminate.
  destruct (e2 <=? emax - prec); try discriminate.
  intros E. injection E as _ _ E. lia.
Qed.

Lemma of_Z_finite (n : Z) : 0 <= n < 2 ^ 53 -> isNaN (of_Z n) = false.
Proof.
  intros H. destruct (Z.eq_dec n 0) as [-> | Hn]; [reflexivity|].
  destruct (of_Z_small n) as (m & e & -> & _); [lia | reflexivity].
Qed.

(** No other positive integer is stored as the Number of an integer below
    2^53. *)
Lemma of_Z_distinct (n k : Z) :
  0 < n < 2 ^ 53 -> 0 < k -> k <> n -> of_Z k <> of_Z n.
Proof.
  intros Hn Hk Hne E.
  destruct (of_Z_small n Hn) as (m & e & En & He & Hm).
  destruct (Z_lt_le_dec k (2 ^ 53)) as [Hs | Hl].
  - destruct (of_Z_small k) as (m' & e' & Ek & He' & Hm'); [lia|].
    rewrite En, Ek in E. injection E as E1 E2. subst e' m'.
    rewrite Hm in Hm'.
    assert (0 < 2 ^ (- e)) by (apply Z.pow_pos_nonneg; lia).
    nia.
  - rewrite En in E. apply of_Z_large in E; lia.
Qed.

Lemma same_refl (x : number) : same x x = true.
Proof.
  destruct x as [sg|sg| |sg m e]; simpl;
    rewrite ?Bool.eqb_reflx, ?Pos.eqb_refl, ?Z.eqb_refl; reflexivity.
Qed.

Lemma same_eq (x y : number) : same x y = true -> x = y.
Proof.
  destruct x as [a|a| |a m e], y as [b|b| |b m' e']; simpl;
    try discriminate; try reflexivity; intros H.
  - apply Bool.eqb_prop in H. now subst.
  - apply Bool.eqb_prop in H. now subst.
  - apply andb_true_iff in H as [H He]. apply andb_true_iff in H as [Hs Hm].
    apply Bool.eqb_prop in Hs. apply Pos.eqb_eq in Hm. apply Z.eqb_eq in He.
    now subst.
Qed.

Lemma same_neq (x y : number) : x <> y -> same x y = false.
Proof.
  intros H. destruct (same x y) eqn:E; [|reflexivity].
  apply same_eq in E. contradiction.
Qed.

(** The fraction of the Number of a small integer is the integer. *)
Lemma fraction_small (n : Z) (m : positive) (e : Z) :
  0 < n -> e <= 0 -> Zpos m = n * 2 ^ (- e) -> fraction m e = (n, 1).
Proof.
  intros Hn He Hm. unfold fraction.
  destruct (0 <=? e) eqn:E.
  - apply Z.leb_le in E. assert (e = 0) by lia. subst e.
    rewrite Hm. simpl. f_equal. lia.
  - assert (Hp : 0 < 2 ^ (- e)) by (apply Z.pow_pos_nonneg; lia).
    rewrite Hm.
    replace (Z.gcd (n * 2 ^ (- e)) (2 ^ (- e))) with (2 ^ (- e)).
    + rewrite Z.div_mul, Z.div_same by lia. reflexivity.
    + rewrite <- (Z.mul_1_l (2 ^ (- e))) at 3.
      rewrite Z.gcd_mul_mono_r_nonneg by lia.
      rewrite Z.gcd_1_r. lia.
Qed.

End IntegerNumbers.

(** ** The text of an integer *)

Section IntegerText.

Lemma digit_string_zero (R : Z) : 0 < R -> digit_string R 0 = lit "0".
Proof.
  intros H. unfold digit_string. now rewrite digits_small.
Qed.

(** In a radix other than 10 an integer below 2^53 is written with its
    digits. *)
Lemma toStringRadix_integer (R n : Z) :
  2 <= R -> R <> 10 -> 0 <= n < 2 ^ 53 ->
  toStringRadix (of_Z n) R = digit_string R n.
Proof.
  intros HR H10 Hn. unfold toStringRadix.
  apply Z.eqb_neq in H10. rewrite H10.
  destruct (Z.eq_dec n 0) as [-> | Hn0].
  - now rewrite digit_string_zero by lia.
  - destruct (of_Z_small n) as (m & e & -> & He & Hm); [lia|].
    rewrite (fraction_small n) by lia.
    rewrite Z.div_1_r, Z.mod_1_r. cbn [Z.eqb app].
    now rewrite app_nil_r.
Qed.

Lemma scale_floor_integer (n k D : Z) :
  k <= D -> scale_floor n 1 (k - D) = n / 10 ^ (D - k).
Proof.
  intros H. unfold scale_floor. destruct (0 <=? k - D) eqn:E.
  - apply Z.leb_le in E. replace (k - D) with 0 by lia.
    replace (D - k) with 0 by lia. now rewrite Z.mul_1_r.
  - rewrite Z.mul_1_l. f_equal. f_equal. lia.
Qed.

Lemma of_decimal_integer (s p : Z) :
  0 < s -> 0 <= p -> of_decimal s p = of_Z (s * 10 ^ p).
Proof.
  intros Hs Hp. unfold of_decimal. destruct s; try lia.
  apply Z.leb_le in Hp. now rewrite Hp.
Qed.

Lemma shortest_aux_S (f : nat) (x : number) (a b n k : Z) :
  shortest_aux (S f) x a b n k
  = if round_trips x (scale_floor a b (k - n)) (n - k)
       && round_trips x (scale_floor a b (k - n) + 1) (n - k)
    then (k, nearer a b (k - n) (scale_floor a b (k - n)))
    else if round_trips x (scale_floor a b (k - n)) (n - k)
    then (k, scale_floor a b (k - n))
    else if round_trips x (scale_floor a b (k - n) + 1) (n - k)
    then (k, scale_floor a b (k - n) + 1)
    else shortest_aux f x a b n (k + 1).
Proof. reflexivity. Qed.

(** The search for the shortest decimal of an integer below 2^53 stops at
    the first length at which the digits left out are all 0. *)
Lemma shortest_aux_integer (n : Z) (fuel : nat) :
  0 < n < 2 ^ 53 ->
  forall k,
  1 <= k <= Z.of_nat (List.length (digits 10 n)) ->
  Z.of_nat (List.length (digits 10 n)) - k < Z.of_nat fuel ->
  exists k' s',
    shortest_aux fuel (of_Z n) n 1 (Z.of_nat (List.length (digits 10 n))) k
    = (k', s')
    /\ k <= k' <= Z.of_nat (List.length (digits 10 n))
    /\ s' * 10 ^ (Z.of_nat (List.length (digits 10 n)) - k') = n.
Proof.
  intros Hn.
  destruct (digits_length 10 ltac:(lia) n ltac:(lia)) as (HD & Hlo & Hhi).
  set (D := Z.of_nat (List.length (digits 10 n))) in *.
  induction fuel as [|f IH]; intros k Hk Hf; [lia|].
  rewrite shortest_aux_S, scale_floor_integer by lia.
  set (q := 10 ^ (D - k)).
  assert (Hq : 0 < q) by (apply Z.pow_pos_nonneg; lia).
  assert (Hqn : q <= n).
  { apply Z.le_trans with (10 ^ (D - 1)); [|exact Hlo].
    apply Z.pow_le_mono_r; lia. }
  assert (Hl : 0 < n / q) by (apply Z.div_str_pos; lia).
  pose proof (Z.div_mod n q ltac:(lia)) as Hdm.
  pose proof (Z.mod_pos_bound n q ltac:(lia)) as Hm.
  unfold round_trips. rewrite !of_decimal_integer by lia. fold q.
  assert (Hhi' : same (of_Z ((n / q + 1) * q)) (of_Z n) = false).
  { apply same_neq, of_Z_distinct; nia. }
  rewrite Hhi', andb_false_r.
  destruct (Z.eq_dec (n mod q) 0) as [E | E].
  - replace (n / q * q) with n by lia. rewrite same_refl.
    exists k, (n / q). repeat split; lia.
  - assert (Hlo' : same (of_Z (n / q * q)) (of_Z n) = false).
    { apply same_neq, of_Z_distinct; nia. }
    rewrite Hlo'.
    assert (Hk' : k < D).
    { destruct (Z.eq_dec k D) as [-> | ]; [|lia].
      unfold q in E. rewrite Z.sub_diag, Z.mod_1_r in E. congruence. }
    destruct (IH (k + 1)) as (k' & s' & -> & Hk'' & Hs); try lia.
    exists k', s'. repeat split; lia.
Qed.

(** [toString] writes an integer below 2^53 with its decimal digits. *)
Lemma toString_integer (n : Z) :
  0 <= n < 2 ^ 53 -> toString (of_Z n) = digit_string 10 n.
Proof.
  intros Hn. destruct (Z.eq_dec n 0) as [-> | Hn0].
  - reflexivity.
  - destruct (of_Z_small n) as (m & e & En & He & Hm); [lia|].
    destruct (digits_length 10 ltac:(lia) n ltac:(lia)) as (HD & Hlo & Hhi).
    destruct (shortest_aux_integer n 16 ltac:(lia) 1) as (k & s & Es & Hk & Hs).
    + lia.
    + assert (H16 : 10 ^ (Z.of_nat (List.length (digits 10 n)) - 1) < 10 ^ 16)
        by (change (10 ^ 16) with 10000000000000000;
            change (2 ^ 53) with 9007199254740992 in Hn; lia).
      apply Z.pow_lt_mono_r_iff in H16; lia.
    + set (D := Z.of_nat (List.length (digits 10 n))) in *.
      rewrite En. unfold toString, shortest.
      rewrite (fraction_small n) by lia.
      unfold decimal_exponent.
      assert (E1 : (1 <=? n) = true) by (apply Z.leb_le; lia).
      rewrite E1, Z.div_1_r. fold D. rewrite <- En, Es.
      assert (Hp : 0 < 10 ^ (D - k)) by (apply Z.pow_pos_nonneg; lia).
      assert (Hs0 : 0 < s) by nia.
      assert (Hsk : s < 10 ^ k).
      { assert (s * 10 ^ (D - k) < 10 ^ k * 10 ^ (D - k)).
        { rewrite <- Z.pow_add_r by lia.
          replace (k + (D - k)) with D by lia. lia. }
        nia. }
      assert (E2 : (s =? 10 ^ k) = false) by (apply Z.eqb_neq; lia).
      rewrite E2. cbn [app]. unfold format_shortest.
      assert (E3 : (k <=? D) && (D <=? 21) = true).
      { apply andb_true_iff. split; apply Z.leb_le; [lia|].
        assert (H16 : 10 ^ (D - 1) < 10 ^ 16)
          by (change (10 ^ 16) with 10000000000000000;
              change (2 ^ 53) with 9007199254740992 in Hn; lia).
        apply Z.pow_lt_mono_r_iff in H16; lia. }
      rewrite E3. unfold digit_string, zeros.
      change (chr "0") with (digit_char 0).
      rewrite <- map_repeat, <- map_app.
      rewrite <- digits_shift by lia.
      rewrite Z2Nat.id by lia. now rewrite Hs.
Qed.

End IntegerText.

(** ** Base conversion *)

Section BaseConversion.

Import Calculator Spec.

(** C4. A decimal numeral of an integer from 0 to 2^53, converted to the
    binary, octal or hexadecimal base and back, is the numeral again. *)
Theorem convertBase_round_trip (B : base) (n : Z) :
  B <> dec -> 0 <= n <= 2 ^ 53 ->
  convertBase (convertBase (decimal n) dec B) B dec = decimal n.
Proof.
  intros HB Hn.
  destruct (Z.eq_dec n (2 ^ 53)) as [-> | Hne].
  { destruct B; [congruence| | |]; vm_compute; reflexivity. }
  assert (Hn' : 0 <= n < 2 ^ 53) by lia. clear Hn Hne.
  assert (Hds : forall R, 2 <= R ->
                  digits R n <> []
                  /\ Forall (fun d => 0 <= d < R) (digits R n)).
  { intros R HR. split; [|apply digits_in_range; lia].
    unfold digits. apply digits_aux_nonempty. right. discriminate. }
  assert (Hin : parseInt (decimal n) 10 = of_Z n).
  { unfold decimal, digit_string.
    destruct (Hds 10 ltac:(lia)) as [H1 H2].
    rewrite (parseInt_glyphs 10 ltac:(lia) digit_char) by auto.
    now rewrite of_digits_digits by lia. }
  assert (Hout : forall R glyph,
            2 <= R <= 16 ->
            (forall d, glyph d = digit_char d
                       \/ glyph d = upper_char (digit_char d)) ->
            (let decimalValue := parseInt (List.map glyph (digits R n)) R in
             if isNaN decimalValue then INVALID_INPUT
             else toStringRadix decimalValue 10) = decimal n).
  { intros R glyph HR Hg. cbv zeta.
    destruct (Hds R ltac:(lia)) as [H1 H2].
    rewrite (parseInt_glyphs R HR glyph Hg) by auto.
    rewrite of_digits_digits, of_Z_finite by lia.
    unfold toStringRadix. cbn [Z.eqb Pos.eqb].
    now apply toString_integer. }
  unfold convertBase at 2. cbn [radix_of]. rewrite Hin, of_Z_finite by lia.
  destruct B; [congruence| | |]; cbn [radix_of].
  - rewrite toStringRadix_integer by lia.
    apply (Hout 2 digit_char); [lia | auto].
  - rewrite toStringRadix_integer by lia.
    apply (Hout 8 digit_char); [lia | auto].
  - rewrite toStringRadix_integer by lia.
    unfold toUpperCase, digit_string. rewrite map_map.
    apply (Hout 16 (fun d => upper_char (digit_char d))); [lia | auto].
Qed.

End BaseConversion.

(** Beyond 2^53 the Numbers have gaps: 2^53 + 1 comes back as 2^53. *)
Lemma round_trip_lost_beyond_2_53 :
  Spec.decimal (2 ^ 53 + 1) = lit "9007199254740993"
  /\ Calculator.convertBase
       (Calculator.convertBase (lit "9007199254740993")
          Calculator.dec Calculator.bin)
       Calculator.bin Calculator.dec
     = lit "9007199254740992"
  /\ Calculator.convertBase
       (Calculator.convertBase (lit "9007199254740993")
          Calculator.dec Calculator.bin)
       Calculator.bin Calculator.dec
     <> lit "9007199254740993".
Proof.
  split; [|split].
  - vm_compute. reflexivity.
  - vm_compute. reflexivity.
  - vm_compute. discriminate.
Qed.

(** ** The theorems at work on concrete inputs *)

Section Instances.

Import Calculator Spec Examples.

Lemma currentInput_never_empty_witness :
  reachable math_unused init
  /\ currentInput init <> []
  /\ currentInput (step math_unused init Clear) <> [].
Proof.
  split; [apply reachable_init|].
  apply (currentInput_never_empty math_unused init Clear).
  apply reachable_init.
Defined.

Lemma calculate_division_by_zero_witness :
  operation five_by_zero = Some DIVIDE
  /\ previousInput five_by_zero <> []
  /\ JsNumber.eqb (parseFloat (currentInput five_by_zero)) pos_zero = true
  /\ calculate math_unused five_by_zero
     = (five_by_zero, [Notify DivisionByZero]).
Proof.
  split; [reflexivity|]. split; [discriminate|]. split; [reflexivity|].
  apply (calculate_division_by_zero math_unused five_by_zero).
  - reflexivity.
  - discriminate.
  - reflexivity.
Defined.

Lemma convertBase_round_trip_witness :
  hex <> dec /\ 0 <= 255 <= 2 ^ 53
  /\ convertBase (convertBase (decimal 255) dec hex) hex dec = decimal 255.
Proof.
  split; [discriminate|]. split; [split; discriminate|].
  apply (convertBase_round_trip hex 255).
  - discriminate.
  - split; discriminate.
Defined.



Lemma scientific_domain_witness :
  leb (parseFloat (lit "-4")) pos_zero = true
  /\ scientificCalculation math_unused (lit "log") (lit "-4") = ERROR
  /\ scientificCalculation math_unused (lit "ln") (lit "-4") = ERROR.
Proof.
  split; [reflexivity|].
  apply (proj1 (scientific_domain math_unused (lit "-4"))).
  reflexivity.
Defined.

Lemma factorial_cases_witness :
  ltb (parseFloat (lit "-3")) pos_zero = true
  /\ scientificCalculation math_unused (lit "factorial") (lit "-3") = ERROR.
Proof.
  split; [reflexivity|].
  apply (proj1 (factorial_cases math_unused (lit "-3"))).
  left. reflexivity.
Defined.

Lemma calculate_noop_idempotent_witness :
  operation init = None /\ calculate math_unused init = (init, []).
Proof.
  split; [reflexivity|].
  apply (proj1 (calculate_noop_idempotent math_unused init)).
  left. reflexivity.
Defined.


End Instances.

(** ** The older page script

    [script.js] differs from the class on three points the specification
    touches: its history entry is built before the variables are reset, its
    division has no test of the divisor, and its operator buttons do not
    calculate a pending operation. *)

Section OlderScript.

Import Legacy.

Lemma older_script_history :
  let s := click EqualsButton
             (click (NumberButton (lit "3"))
                (click (OperatorButton (lit "+"))
                   (click (NumberButton (lit "7")) init))) in
  currentInput s = lit "10"
  /\ calculationHistory s = [lit "7 + 3 = 10"].
Proof. vm_compute. split; reflexivity. Qed.

(** The older script on a zero divisor.  With 5, the division key and 0 entered, a
    division is pending with its left operand and the display parses to
    zero; the equals button does not leave the state as it was: the display
    shows "Infinity", the operation is cleared and the history gets the
    entry of the division. *)
Lemma older_script_divides_by_zero :
  let s := click (NumberButton (lit "0"))
             (click (OperatorButton Calculator.DIVIDE)
                (click (NumberButton (lit "5")) init)) in
  (operation s = Some Calculator.DIVIDE /\ previousInput s <> []
   /\ JsNumber.eqb (parseFloat (currentInput s)) pos_zero = true)
  /\ click EqualsButton s <> s
  /\ currentInput (click EqualsButton s) = lit "Infinity"
  /\ previousInput (click EqualsButton s) = []
  /\ operation (click EqualsButton s) = None
  /\ calculationHistory (click EqualsButton s)
     = [lit "5 " ++ Calculator.DIVIDE ++ lit " 0 = Infinity"].
Proof.
  split; [|split; [|split; [|split; [|split]]]].
  - split; [reflexivity|]. split; [discriminate | reflexivity].
  - vm_compute. discriminate.
  - vm_compute. reflexivity.
  - reflexivity.
  - reflexivity.
  - vm_compute. reflexivity.
Qed.


End OlderScript.

(** In the decimal and in the hexadecimal base [handleNumberButton] does not
    look at the character at all. *)
Lemma base_check_decimal_hexadecimal (b : Calculator.base) (value : str) :
  b = Calculator.dec \/ b = Calculator.hex ->
  Calculator.base_check b value = None.
Proof. intros [-> | ->]; reflexivity. Qed.

(** ** The history *)

Section History.

Import Calculator Spec.

Variable Math : MathLib.

Lemma addToHistory_window (entry : str) (s : state) :
  (List.length (history s) <= MAX_HISTORY)%nat ->
  history (addToHistory entry s)
  = firstn MAX_HISTORY (entry :: history s).
Proof.
  intros H. unfold addToHistory. cbn [history set_history].
  destruct (Nat.ltb_spec MAX_HISTORY (List.length (entry :: history s)))
    as [Hlt | Hge].
  - rewrite removelast_firstn_len. f_equal.
    cbn [List.length] in *. lia.
  - symmetry. apply firstn_all2. exact Hge.
Qed.

Lemma calculate_history (s : state) :
  history (fst (calculate Math s)) = history s
  \/ exists entry,
       history (fst (calculate Math s))
       = history (addToHistory entry
                    (set_previousInput []
                       (set_operation None
                          (set_currentInput
                             (currentInput (fst (calculate Math s))) s)))).
Proof.
  unfold calculate, finish_calculation.
  repeat match goal with
         | |- context [if ?b then _ else _] => destruct b
         end; cbn [fst]; auto; right; eexists; reflexivity.
Qed.

(** X1. An operation leaves the history as it is or puts one entry in front
    of it, the entries beyond the fiftieth being dropped; only the equals
    key and an operator key can add an entry. *)
Theorem history_step (s : state) (a : action) :
  (List.length (history s) <= MAX_HISTORY)%nat ->
  (history (step Math s a) = history s
   \/ exists entry,
        history (step Math s a) = firstn MAX_HISTORY (entry :: history s))
  /\ (match a with
      | Evaluate | SetOperator _ => True
      | _ => history (step Math s a) = history s
      end).
Proof.
  intros H.
  assert (Hc : history (fst (calculate Math s)) = history s
               \/ exists entry,
                    history (fst (calculate Math s))
                    = firstn MAX_HISTORY (entry :: history s)).
  { destruct (calculate_history s) as [E | [entry E]]; [now left|].
    right. exists entry. rewrite E, addToHistory_window; [reflexivity|].
    exact H. }
  unfold step. destruct a; cbn [run].
  - split; [left|];
      unfold handleNumberButton; destruct (base_check _ _);
      try destruct (_ || _); reflexivity.
  - split; [|exact I].
    unfold handleOperatorButton.
    destruct (JsString.eqb op (lit "%")); [now left|].
    destruct (_ && _); [|now left].
    destruct (calculate Math s) as [s1 fx]. exact Hc.
  - split; [exact Hc | exact I].
  - split; [left|]; reflexivity.
  - split; [left|]; unfold deleteLastCharacter;
      destruct (Nat.ltb _ _); reflexivity.
  - split; [left|]; unfold addDecimal; destruct (negb _); reflexivity.
  - split; [left|]; destruct (isScientific s); reflexivity.
  - split; [left|]; unfold handleMathSymbol; cbn [fst];
      repeat match goal with
             | |- context [if ?b then _ else _] => destruct b
             end; reflexivity.
  - split; [left|]; unfold handleConversion;
      destruct (negb _); try reflexivity; destruct c; reflexivity.
  - split; [left|]; reflexivity.
Qed.

Lemma step_history_length (s : state) (a : action) :
  (List.length (history s) <= MAX_HISTORY)%nat ->
  (List.length (history (step Math s a)) <= MAX_HISTORY)%nat.
Proof.
  intros H.
  assert (Hc : (List.length (history (fst (calculate Math s)))
                <= MAX_HISTORY)%nat).
  { destruct (calculate_history s) as [E | [entry E]]; rewrite E;
      [exact H|].
    rewrite addToHistory_window by exact H.
    rewrite length_firstn. lia. }
  unfold step. destruct a; cbn [run]; try exact H; try exact Hc.
  - unfold handleNumberButton. destruct (base_check _ _);
      try destruct (_ || _); exact H.
  - unfold handleOperatorButton.
    destruct (JsString.eqb op (lit "%")); [exact H|].
    destruct (_ && _); [|exact H].
    destruct (calculate Math s) as [s1 fx]. exact Hc.
  - unfold deleteLastCharacter. destruct (Nat.ltb _ _); exact H.
  - unfold addDecimal. destruct (negb _); exact H.
  - destruct (isScientific s); exact H.
  - unfold handleMathSymbol. cbn [fst].
    repeat match goal with
           | |- context [if ?b then _ else _] => destruct b
           end; exact H.
  - unfold handleConversion.
    destruct (negb _); try exact H; destruct c; exact H.
Qed.

(** X2. However long the calculator is used, the history holds at most
    fifty entries. *)
Theorem history_bounded (s : state) :
  reachable Math s -> (List.length (history s) <= MAX_HISTORY)%nat.
Proof.
  induction 1 as [|s a _ IH].
  - cbn. unfold MAX_HISTORY. lia.
  - now apply step_history_length.
Qed.

End History.

(** ** Editing the display *)

Section Editing.

Import Calculator Spec.

Variable Math : MathLib.




Lemma includes_snoc (v : str) (c : char16) : includes (v ++ [c]) c = true.
Proof.
  unfold includes. rewrite existsb_app. cbn [existsb].
  now rewrite N.eqb_refl, orb_true_r.
Qed.

(** X4. After the decimal key the display holds a point, and pressing the
    key again does nothing: no second point is ever appended. *)
Theorem addDecimal_once (s : state) :
  includes (currentInput (fst (addDecimal s))) (chr ".") = true
  /\ addDecimal (fst (addDecimal s)) = (fst (addDecimal s), [])
  /\ (includes (currentInput s) (chr ".") = false ->
      currentInput (fst (addDecimal s)) = currentInput s ++ lit ".")
  /\ (includes (currentInput s) (chr ".") = true ->
      fst (addDecimal s) = s).
Proof.
  assert (H1 : includes (currentInput (fst (addDecimal s))) (chr ".") = true).
  { unfold addDecimal.
    destruct (includes (currentInput s) (chr ".")) eqn:E; cbn [negb fst].
    - exact E.
    - cbn [currentInput set_currentInput]. apply includes_snoc. }
  split; [exact H1|]. split; [|split].
  - unfold addDecimal at 1. now rewrite H1.
  - intros E. unfold addDecimal. now rewrite E.
  - intros E. unfold addDecimal. now rewrite E.
Qed.

(** X5. [calculate] never touches the reset flag, the mode or the base.  So
    a digit typed after the equals key is appended to the result, unless
    the result is "0". *)
Theorem digit_after_calculate (d : char16) (s : state) :
  (resetScreen (fst (calculate Math s)) = resetScreen s
   /\ isScientific (fst (calculate Math s)) = isScientific s
   /\ currentBase (fst (calculate Math s)) = currentBase s)
  /\ (base_check (currentBase s) [d] = None ->
      resetScreen s = false ->
      currentInput (fst (calculate Math s)) <> lit "0" ->
      currentInput (fst (handleNumberButton [d] (fst (calculate Math s))))
      = currentInput (fst (calculate Math s)) ++ [d]).
Proof.
  assert (F : resetScreen (fst (calculate Math s)) = resetScreen s
              /\ isScientific (fst (calculate Math s)) = isScientific s
              /\ currentBase (fst (calculate Math s)) = currentBase s).
  { unfold calculate, finish_calculation.
    repeat match goal with
           | |- context [if ?b then _ else _] => destruct b
           end; repeat split. }
  split; [exact F|].
  destruct F as (Fr & _ & Fb).
  intros Hb Hr H0. unfold handleNumberButton.
  rewrite Fb, Hb, Fr, Hr. apply str_eqb_neq in H0. now rewrite H0.
Qed.

Lemma trimStart_blank (v : str) :
  forallb is_space v = true -> trimStart v = [].
Proof.
  induction v as [|c v IH]; cbn [forallb trimStart]; [reflexivity|].
  intros H. apply andb_true_iff in H as [H1 H2]. rewrite H1. now apply IH.
Qed.

(** X6. The conversion panel: a field that is empty or blank changes
    nothing and asks for a number; a conversion to the decimal base shows
    its result in the panel only and leaves the calculator as it is. *)
Theorem handleConversion_frame (c : conversion) (field : str) (s : state) :
  (forallb is_space field = true ->
   handleConversion c field s = (s, [ConversionResult ENTER_A_NUMBER]))
  /\ (c = bin2dec \/ c = oct2dec \/ c = hex2dec ->
      fst (handleConversion c field s) = s).
Proof.
  split.
  - intros H. unfold handleConversion, trim.
    rewrite (trimStart_blank _ H). reflexivity.
  - intros H. unfold handleConversion.
    destruct (negb _); [reflexivity|].
    destruct H as [-> | [-> | ->]]; reflexivity.
Qed.

End Editing.

(** ** More on base conversion *)

Section Conversion.

Import Calculator Spec.

Lemma radix_of_range (b : base) : 2 <= radix_of b <= 16.
Proof. destruct b; cbn; lia. Qed.

Lemma of_digits_snoc_nonneg (R : Z) (ds : list Z) :
  0 <= R -> Forall (fun d => 0 <= d < R) ds -> 0 <= of_digits R ds.
Proof.
  intros HR H. induction ds as [|d ds IH] using rev_ind.
  - cbn. lia.
  - apply Forall_app in H as [H1 H2]. inversion H2; subst.
    rewrite of_digits_snoc. specialize (IH H1). nia.
Qed.

(** The numeral of [n] in a base, as [convertBase] writes it. *)
Lemma numeral_text (t : base) (n : Z) :
  0 <= n < 2 ^ 53 ->
  (if isNaN (of_Z n) then INVALID_INPUT
   else match t with
        | hex => toUpperCase (toStringRadix (of_Z n) 16)
        | b => toStringRadix (of_Z n) (radix_of b)
        end)
  = match t with
    | hex => toUpperCase (digit_string 16 n)
    | b => digit_string (radix_of b) n
    end.
Proof.
  intros Hn. rewrite of_Z_finite by lia.
  destruct t; cbn [radix_of].
  - unfold toStringRadix. cbn [Z.eqb Pos.eqb]. now apply toString_integer.
  - apply toStringRadix_integer; lia.
  - apply toStringRadix_integer; lia.
  - f_equal. apply toStringRadix_integer; lia.
Qed.

(** X7. [convertBase] reads a string of digits of the source base, in
    either case and with any number of leading zeros, as the integer it
    writes, and answers the numeral of that integer in the target base, in
    upper case for the hexadecimal base; this for integers below 2^53. *)
Theorem convertBase_value (f t : base) (glyph : Z -> char16) (ds : list Z) :
  (forall d, glyph d = digit_char d \/ glyph d = upper_char (digit_char d)) ->
  ds <> [] ->
  Forall (fun d => 0 <= d < radix_of f) ds ->
  of_digits (radix_of f) ds < 2 ^ 53 ->
  convertBase (List.map glyph ds) f t
  = match t with
    | hex => toUpperCase (digit_string 16 (of_digits (radix_of f) ds))
    | b => digit_string (radix_of b) (of_digits (radix_of f) ds)
    end.
Proof.
  intros Hg Hne Hds Hn.
  pose proof (radix_of_range f) as HR.
  pose proof (of_digits_snoc_nonneg (radix_of f) ds ltac:(lia) Hds) as H0.
  unfold convertBase.
  rewrite (parseInt_glyphs (radix_of f) HR glyph Hg ds Hne Hds).
  apply numeral_text. lia.
Qed.

Lemma digits_nonempty (R n : Z) : digits R n <> [].
Proof. unfold digits. apply digits_aux_nonempty. right. discriminate. Qed.

(** X8. The round trip the other way: the numeral of an integer below 2^53
    in any of the four bases (upper case in the hexadecimal base),
    converted to decimal and back, is the numeral again. *)
Theorem convertBase_round_trip_from (B : base) (n : Z) :
  0 <= n < 2 ^ 53 ->
  let y := match B with
           | hex => toUpperCase (digit_string 16 n)
           | b => digit_string (radix_of b) n
           end in
  convertBase y B dec = decimal n
  /\ convertBase (convertBase y B dec) dec B = y.
Proof.
  intros Hn y.
  assert (Hds : forall R, 2 <= R ->
                  digits R n <> []
                  /\ Forall (fun d => 0 <= d < R) (digits R n))
    by (intros R HR; split;
        [apply digits_nonempty | apply digits_in_range; lia]).
  assert (E1 : convertBase y B dec = decimal n).
  { pose proof (radix_of_range B) as HR.
    assert (G : exists glyph,
              (forall d, glyph d = digit_char d
                         \/ glyph d = upper_char (digit_char d))
              /\ y = List.map glyph (digits (radix_of B) n)).
    { destruct B; cbn [radix_of] in *; subst y.
      - exists digit_char; split; auto.
      - exists digit_char; split; auto.
      - exists digit_char; split; auto.
      - exists (fun d => upper_char (digit_char d)); split; auto.
        unfold toUpperCase, digit_string. now rewrite map_map. }
    destruct G as (glyph & Hg & ->).
    destruct (Hds (radix_of B) ltac:(lia)) as [H1 H2].
    unfold convertBase.
    rewrite (parseInt_glyphs (radix_of B) HR glyph Hg _ H1 H2).
    rewrite of_digits_digits by lia.
    apply (numeral_text dec n Hn). }
  split; [exact E1|]. rewrite E1.
  destruct (Hds 10 ltac:(lia)) as [H1 H2].
  unfold decimal, digit_string, convertBase. cbn [radix_of].
  rewrite (parseInt_glyphs 10 ltac:(lia) digit_char) by auto.
  rewrite of_digits_digits by lia.
  apply (numeral_text B n Hn).
Qed.

Lemma digit_in_zero (R : Z) : 2 <= R -> digit_in R (chr "0") = Some 0.
Proof.
  intros H. unfold digit_in. cbn.
  assert (E : (0 <? R) = true) by (apply Z.ltb_lt; lia). now rewrite E.
Qed.

(** X9. A string that does not start, after white space and a sign, with a
    digit of the source base is no number: [convertBase] answers the
    "invalid input" sentinel, whatever the target base. *)
Theorem convertBase_invalid (value : str) (f t : base) :
  (snd (take_sign (trimStart value)) = []
   \/ exists c rest, snd (take_sign (trimStart value)) = c :: rest
                     /\ digit_in (radix_of f) c = None) ->
  convertBase value f t = INVALID_INPUT.
Proof.
  intros H. pose proof (radix_of_range f) as HR.
  unfold convertBase, parseInt.
  destruct (take_sign (trimStart value)) as [sg s]. cbn [snd] in H.
  assert (E0 : (radix_of f =? 0) = false) by (apply Z.eqb_neq; lia).
  assert (E2 : (radix_of f <? 2) = false) by (apply Z.ltb_ge; lia).
  assert (E36 : (36 <? radix_of f) = false) by (apply Z.ltb_ge; lia).
  rewrite E0, E2, E36. cbn [negb andb orb].
  destruct H as [-> | (c & rest & -> & Hc)].
  - cbn [startsWith lit]. rewrite andb_false_r. reflexivity.
  - assert (Hne : N.eqb (chr "0") c = false).
    { apply N.eqb_neq. intros <-. rewrite digit_in_zero in Hc by lia.
      discriminate Hc. }
    change (lit "0x") with [chr "0"; chr "x"].
    change (lit "0X") with [chr "0"; chr "X"].
    cbn [startsWith]. rewrite Hne. cbn [andb orb]. rewrite andb_false_r.
    cbn [take_digits]. rewrite Hc. reflexivity.
Qed.

End Conversion.

(** ** The pools *)

Section PoolInvariant.

Import Pools.

Lemma cancel_incl (r : elem) (l : list elem) (x : elem) :
  In x (cancel r l) -> In x l.
Proof.
  induction l as [|y l IH]; cbn [cancel]; [auto|].
  destruct (Nat.eqb r y); cbn [In]; intuition.
Qed.

Lemma cancel_nodup (r : elem) (l : list elem) :
  NoDup l -> NoDup (cancel r l) /\ ~ In r (cancel r l).
Proof.
  induction 1 as [|y l Hy Hl [IH1 IH2]]; cbn [cancel].
  - split; [constructor | intros []].
  - destruct (Nat.eqb_spec r y) as [-> | Hne].
    + split; assumption.
    + split.
      * constructor; [|exact IH1]. intros H. apply Hy.
        now apply cancel_incl in H.
      * intros [H | H]; [congruence | contradiction].
Qed.

Lemma nodup_app_split (l1 l2 : list elem) :
  NoDup (l1 ++ l2) <->
  NoDup l1 /\ NoDup l2 /\ (forall x, In x l1 -> ~ In x l2).
Proof.
  induction l1 as [|a l1 IH]; cbn [app].
  - split; [intros H; repeat split; [constructor | exact H | intros ? []]|].
    intros (_ & H & _). exact H.
  - split.
    + intros H. inversion H as [|? ? Ha Hl]; subst.
      apply IH in Hl as (H1 & H2 & H3).
      repeat split; try assumption.
      * constructor; [|exact H1]. intros Hin. apply Ha, in_or_app. now left.
      * intros x [-> | Hx]; [|now apply H3].
        intros Hin. apply Ha, in_or_app. now right.
    + intros (H1 & H2 & H3). inversion H1 as [|? ? Ha Hl]; subst.
      constructor.
      * intros Hin. apply in_app_or in Hin as [Hin | Hin]; [contradiction|].
        apply (H3 a); [now left | exact Hin].
      * apply IH. repeat split; try assumption.
        intros x Hx. apply H3. now right.
Qed.

Lemma initPool_ok (size : nat) : pool_ok size (initPool size).
Proof.
  unfold pool_ok, initPool. cbn [free timers created maxPoolSize].
  rewrite app_nil_r, length_rev, length_seq. repeat split; try lia.
  - apply NoDup_rev, seq_NoDup.
  - intros r H. apply in_rev, in_seq in H. lia.
Qed.

Lemma createEffect_ok (size : nat) (p : pool) :
  pool_ok size p -> pool_ok size (createEffect p).
Proof.
  intros (Hm & Hl & Hn & Hc). unfold createEffect, getRipple, pool_ok.
  destruct (free p) as [|r rest] eqn:Ef;
    cbn [free timers created maxPoolSize active app List.length] in *;
    (split; [exact Hm | split; [|split]]).
  - lia.
  - apply nodup_app_split. split; [exact Hn | split].
    + repeat constructor. intros [].
    + intros x Hx [<- | []]. apply Hc in Hx. lia.
  - intros x Hx. apply in_app_or in Hx as [Hx | [<- | []]]; [|lia].
    specialize (Hc x Hx). lia.
  - lia.
  - inversion Hn as [|? ? Hr Hrest]; subst.
    rewrite app_assoc. apply nodup_app_split. split; [exact Hrest | split].
    + repeat constructor. intros [].
    + intros x Hx [<- | []]. contradiction.
  - intros x Hx. apply Hc. rewrite app_assoc in Hx.
    apply in_app_or in Hx as [Hx | [<- | []]]; [now right | now left].
Qed.

Lemma recycle_ok (size : nat) (r : elem) (p : pool) :
  pool_ok size p -> In r (timers p) -> pool_ok size (recycle r p).
Proof.
  intros (Hm & Hl & Hn & Hc) Hr. unfold recycle, returnRipple, pool_ok.
  cbn [free timers created maxPoolSize active].
  apply nodup_app_split in Hn as (Hf & Ht & Hd).
  destruct (cancel_nodup r _ Ht) as [Hc1 Hc2].
  assert (Hrf : ~ In r (free p)) by (intros H; exact (Hd r H Hr)).
  assert (Hrest : NoDup (free p ++ cancel r (timers p))).
  { apply nodup_app_split. repeat split; try assumption.
    intros x Hx Hin. apply (Hd x Hx). now apply cancel_incl in Hin. }
  assert (Hlt : forall x, In x (free p ++ cancel r (timers p)) ->
                          (x < created p)%nat).
  { intros x Hx. apply Hc. apply in_app_or in Hx as [Hx | Hx];
      apply in_or_app; [now left | right; now apply cancel_incl in Hx]. }
  destruct (Nat.ltb_spec (List.length (free p)) (maxPoolSize p)) as [Hroom | Hfull];
    cbn [free timers created maxPoolSize].
  - split; [exact Hm | split; [|split]].
    + cbn [List.length]. lia.
    + cbn [app]. constructor; [|exact Hrest].
      intros Hin. apply in_app_or in Hin as [Hin | Hin]; contradiction.
    + intros x [<- | Hx]; [|now apply Hlt].
      apply Hc, in_or_app. now right.
  - split; [exact Hm | split; [exact Hl | split; assumption]].
Qed.

Lemma step_ok (size : nat) (p : pool) (e : event) :
  pool_ok size p -> pool_ok size (step p e).
Proof.
  intros H. destruct e as [|r|]; cbn [step].
  - now apply createEffect_ok.
  - destruct (existsb (Nat.eqb r) (timers p)) eqn:E; [|exact H].
    apply recycle_ok; [exact H|].
    apply existsb_exists in E as (x & Hx & Ex).
    apply Nat.eqb_eq in Ex. now subst.
  - exact H.
Qed.

(** X10. A pool never stores more elements than its size, no element is in
    the stack twice or while its timer is pending, and the element
    [getRipple] hands out is not one that is still waiting for its
    timer. *)
Theorem pool_bounded_exclusive (size : nat) (p : pool) :
  reachable size p ->
  (List.length (free p) <= size)%nat
  /\ NoDup (free p ++ timers p)
  /\ ~ In (fst (getRipple p)) (timers p).
Proof.
  intros H.
  assert (Hok : pool_ok size p).
  { induction H as [|p e _ IH]; [apply initPool_ok | now apply step_ok]. }
  destruct Hok as (Hm & Hl & Hn & Hc).
  split; [exact Hl | split; [exact Hn|]].
  unfold getRipple. destruct (free p) as [|r rest] eqn:Ef; cbn [fst].
  - intros Hin. specialize (Hc (created p) Hin). lia.
  - apply nodup_app_split in Hn as (_ & _ & Hd). apply Hd. now left.
Qed.

End PoolInvariant.

(** ** The grid of buttons *)

Section GridFacts.

Import Grid.

Lemma gap_sym (a b : nat) : gap a b = gap b a.
Proof. unfold gap. lia. Qed.

Lemma gap_zero (a b : nat) : gap a b = O -> a = b.
Proof. unfold gap. lia. Qed.

Lemma distance_sym (p q : nat * nat) : distance p q = distance q p.
Proof. unfold distance. now rewrite (gap_sym (fst p)), (gap_sym (snd p)). Qed.

Lemma position_inj (columns i j : nat) :
  columns <> O -> position columns i = position columns j -> i = j.
Proof.
  intros Hc H. unfold position in H. injection H as H1 H2.
  rewrite (Nat.div_mod_eq i columns), (Nat.div_mod_eq j columns). congruence.
Qed.

Lemma neighbour_iff (columns n button radius j : nat) :
  In j (getNeighborButtons columns n button radius) <->
  (button < n)%nat /\ (j < n)%nat /\ j <> button
  /\ (distance (position columns j) (position columns button) <= radius)%nat.
Proof.
  unfold getNeighborButtons.
  destruct (Nat.ltb_spec button n) as [Hb | Hb].
  - rewrite filter_In, in_seq, andb_true_iff, negb_true_iff,
      Nat.eqb_neq, Nat.leb_le. intuition lia.
  - cbn [In]. intuition lia.
Qed.

(** X11. The neighbours of a button: never the button itself, always
    buttons of the grid, none at all for the radius 0, and a button is a
    neighbour of another exactly when that one is a neighbour of it. *)
Theorem getNeighborButtons_symmetric (columns n radius a b : nat) :
  columns <> O ->
  ~ In a (getNeighborButtons columns n a radius)
  /\ (In b (getNeighborButtons columns n a radius) -> (b < n)%nat)
  /\ getNeighborButtons columns n a 0 = []
  /\ (In b (getNeighborButtons columns n a radius)
      <-> In a (getNeighborButtons columns n b radius)).
Proof.
  intros Hc. split; [|split; [|split]].
  - rewrite neighbour_iff. intuition.
  - rewrite neighbour_iff. intuition.
  - destruct (getNeighborButtons columns n a 0) as [|j l] eqn:E;
      [reflexivity|].
    assert (Hj : In j (getNeighborButtons columns n a 0))
      by (rewrite E; now left).
    apply neighbour_iff in Hj as (_ & _ & Hne & Hd).
    exfalso. apply Hne. apply (position_inj columns); [exact Hc|].
    unfold distance in Hd.
    destruct (position columns j) as [r1 c1],
             (position columns a) as [r2 c2]. cbn [fst snd] in Hd.
    f_equal; apply gap_zero; lia.
  - rewrite !neighbour_iff, (distance_sym (position columns b)).
    intuition.
Qed.

Lemma item_some (n k : Z) : 0 <= k < n -> item n k = Some k.
Proof.
  intros H. unfold item.
  assert (E : (0 <=? k) && (k <? n) = true)
    by (apply andb_true_iff; split; [apply Z.leb_le | apply Z.ltb_lt]; lia).
  now rewrite E.
Qed.

Lemma item_none (n k : Z) : n <= k -> item n k = None.
Proof.
  intros H. unfold item.
  assert (E : (k <? n) = false) by (apply Z.ltb_ge; lia).
  now rewrite E, andb_false_r.
Qed.

(** X12. The adjacent buttons of the older script, for a button of the
    list: the button itself is never among them; an entry is [undefined]
    exactly for the last button of a list whose length is no multiple of
    4, whose right-hand neighbour is looked up past the end. *)
Theorem getAdjacentButtons_bounds (n i : Z) :
  0 <= i < n ->
  ~ In (Some i) (getAdjacentButtons n i)
  /\ (In None (getAdjacentButtons n i) <-> i = n - 1 /\ Z.rem n 4 <> 0).
Proof.
  intros Hi. unfold getAdjacentButtons.
  rewrite (Z.rem_mod_nonneg i 4) by lia.
  rewrite (Z.rem_mod_nonneg n 4) by lia.
  pose proof (Z.mod_pos_bound i 4 ltac:(lia)) as Hm.
  pose proof (Z.div_mod i 4 ltac:(lia)) as Hdi.
  pose proof (Z.mod_pos_bound n 4 ltac:(lia)) as Hmn.
  pose proof (Z.div_mod n 4 ltac:(lia)) as Hdn.
  destruct (Z.leb_spec 4 i) as [H1 | H1];
    destruct (Z.ltb_spec i (n - 4)) as [H2 | H2];
    destruct (Z.eqb_spec (i mod 4) 0) as [H3 | H3];
    destruct (Z.eqb_spec (i mod 4) 3) as [H4 | H4];
    cbn [negb app];
    rewrite ?(item_some n (i - 4)), ?(item_some n (i + 4)),
      ?(item_some n (i - 1)) by lia;
    try (destruct (Z_lt_le_dec (i + 1) n) as [H5 | H5];
         [rewrite (item_some n (i + 1)) by lia
         | rewrite (item_none n (i + 1)) by lia]);
    cbn [In]; (split; [intros H | split; [intros H | intros H]]);
    repeat match goal with
           | X : _ \/ _ |- _ => destruct X
           | X : Some _ = Some _ |- _ => injection X as X
           | X : Some _ = None |- _ => discriminate X
           | X : None = Some _ |- _ => discriminate X
           | X : False |- _ => destruct X
           | X : _ /\ _ |- _ => destruct X
           end; try lia; auto 6.
Qed.

End GridFacts.

(** ** The sample windows *)

Section Windows.

Import Telemetry.

Variable A : Type.

Lemma push_capped_window (cap : nat) (x : A) (l : list A) :
  (List.length l <= cap)%nat ->
  push_capped cap x l = skipn (List.length (l ++ [x]) - cap) (l ++ [x]).
Proof.
  intros H. unfold push_capped. rewrite length_app. cbn [List.length].
  destruct (Nat.ltb_spec cap (List.length l + 1)) as [Hlt | Hge].
  - replace (List.length l + 1 - cap)%nat with 1%nat by lia. reflexivity.
  - replace (List.length l + 1 - cap)%nat with O by lia. reflexivity.
Qed.

(** X13. A window of samples of the optimization system never holds more
    than its cap, and after any number of pushes it holds the most recent
    samples, in the order they came. *)
Theorem window_keeps_latest (cap : nat) (xs l : list A) :
  (List.length l <= cap)%nat ->
  fold_left (fun w x => push_capped cap x w) xs l
  = skipn (List.length (l ++ xs) - cap) (l ++ xs)
  /\ (List.length (fold_left (fun w x => push_capped cap x w) xs l)
      <= cap)%nat.
Proof.
  intros H.
  assert (E : fold_left (fun w x => push_capped cap x w) xs l
              = skipn (List.length (l ++ xs) - cap) (l ++ xs)).
  { revert l H. induction xs as [|x xs IH]; intros l H; cbn [fold_left].
    - rewrite app_nil_r. replace (List.length l - cap)%nat with O by lia.
      reflexivity.
    - rewrite IH.
      + rewrite push_capped_window by exact H.
        rewrite !length_app, length_skipn, length_app. cbn [List.length].
        destruct (Nat.le_gt_cases (List.length l + 1) cap) as [Hs | Hs].
        * replace (List.length l + 1 - cap)%nat with O by lia.
          cbn [skipn]. rewrite <- app_assoc. cbn [app].
          f_equal. lia.
        * assert (Hl : List.length l = cap) by lia.
          replace (List.length l + 1 - cap)%nat with 1%nat by lia.
          replace (List.length l + 1 - 1 + List.length xs - cap)%nat
            with (List.length xs) by lia.
          replace (List.length l + S (List.length xs) - cap)%nat
            with (S (List.length xs)) by lia.
          destruct l as [|a l]; cbn [app skipn]; [reflexivity|].
          now rewrite <- app_assoc.
      + rewrite push_capped_window by exact H.
        rewrite length_skipn, length_app. cbn [List.length]. lia. }
  split; [exact E|]. rewrite E, length_skipn, length_app. lia.
Qed.

End Windows.

(** ** The factorial of the older script *)

Section OlderFactorial.

Import LegacyFactorial.

Lemma iter_pos_invariant (P : shr_record -> Prop) (f : shr_record -> shr_record) :
  (forall x, P x -> P (f x)) ->
  forall n x, P x -> P (iter_pos f n x).
Proof.
  intros Hf. induction n as [n IH | n IH |]; intros x Hx; cbn [iter_pos].
  - apply IH, IH, Hf, Hx.
  - apply IH, IH, Hx.
  - apply Hf, Hx.
Qed.

Lemma shr_1_nonneg (mrs : shr_record) :
  0 <= shr_m mrs -> 0 <= shr_m (shr_1 mrs).
Proof.
  destruct mrs as [m r s]. cbn [shr_m]. intros H.
  destruct m as [|[p|p|]|p]; cbn; lia.
Qed.

Lemma shr_nonneg (mrs : shr_record) (e n : Z) :
  0 <= shr_m mrs -> 0 <= shr_m (fst (shr mrs e n)).
Proof.
  intros H. destruct n; cbn [shr fst]; try exact H.
  apply (iter_pos_invariant (fun x => 0 <= shr_m x)); [|exact H].
  apply shr_1_nonneg.
Qed.

Lemma shr_record_of_loc_m (m : Z) (l : location) :
  shr_m (shr_record_of_loc m l) = m.
Proof. destruct l as [|[| |]]; reflexivity. Qed.

(** Rounding a mantissa that is not negative never gives NaN. *)
Lemma binary_round_aux_not_nan (sx : bool) (mx ex : Z) (lx : location) :
  0 <= mx -> isNaN (binary_round_aux prec emax sx mx ex lx) = false.
Proof.
  intros H. unfold binary_round_aux, shr_fexp.
  pose proof (shr_nonneg (shr_record_of_loc mx lx) ex
                (fexp prec emax (Zdigits2 mx + ex) - ex)) as H1.
  rewrite shr_record_of_loc_m in H1. specialize (H1 H).
  destruct (shr (shr_record_of_loc mx lx) ex _) as [mrs1 e1].
  cbn [fst] in H1.
  set (m2 := round_nearest_even (shr_m mrs1) (loc_of_shr_record mrs1)).
  assert (H2 : 0 <= m2).
  { unfold m2, round_nearest_even.
    destruct (loc_of_shr_record mrs1) as [|[| |]];
      try destruct (Z.even (shr_m mrs1)); lia. }
  pose proof (shr_nonneg (shr_record_of_loc m2 loc_Exact) e1
                (fexp prec emax (Zdigits2 m2 + e1) - e1)) as H3.
  rewrite shr_record_of_loc_m in H3. specialize (H3 H2).
  destruct (shr (shr_record_of_loc m2 loc_Exact) e1 _) as [mrs2 e2].
  cbn [fst] in H3.
  destruct (shr_m mrs2); try lia; try reflexivity.
  destruct (e2 <=? emax - prec); reflexivity.
Qed.

Lemma binary_normalize_not_nan (m e : Z) (sz : bool) :
  isNaN (binary_normalize prec emax m e sz) = false.
Proof.
  unfold binary_normalize, binary_round.
  destruct m as [|p|p]; [reflexivity| |];
    destruct (shl_align p e _) as [mz ez];
    apply binary_round_aux_not_nan; lia.
Qed.

(** Counting on from a Number never gives NaN. *)
Lemma successor_not_nan (i : number) :
  isNaN i = false -> isNaN (add i (of_Z 1)) = false.
Proof.
  intros H. change (of_Z 1) with (S754_finite false 4503599627370496 (-52)).
  destruct i as [sg|sg| |sg m e]; try discriminate H; try reflexivity.
  unfold add, SFadd. apply binary_normalize_not_nan.
Qed.

Lemma below_infinity (i : number) :
  isNaN i = false -> leb i (infinity false) = true.
Proof.
  destruct i as [sg|sg| |sg m e]; try destruct sg; intros H;
    try discriminate H; reflexivity.
Qed.

Lemma loop_to_infinity (fuel : nat) :
  forall i result, isNaN i = false ->
  loop fuel (infinity false) i result = None.
Proof.
  induction fuel as [|f IH]; intros i result H; cbn [loop]; [reflexivity|].
  rewrite below_infinity by exact H.
  apply IH. now apply successor_not_nan.
Qed.

(** X14. The factorial of the older script has no guard.  Below 2 (negative
    operands, fractions, NaN) the loop does not run and the answer is 1; on
    Infinity, which the display shows after a division by zero, the loop
    never ends, whatever the fuel: the factorial key then hangs the
    page. *)
Theorem older_factorial_unguarded (fuel : nat) :
  (forall n, leb (of_Z 2) n = false -> factorial (S fuel) n = Some (of_Z 1))
  /\ factorial fuel (infinity false) = None
  /\ (forall s,
        Legacy.currentInput s = lit "Infinity" ->
        factorial_button fuel s = None).
Proof.
  split; [|split].
  - intros n H. unfold factorial.
    destruct (JsNumber.eqb n (of_Z 0) || JsNumber.eqb n (of_Z 1));
      [reflexivity|].
    cbn [loop]. now rewrite H.
  - unfold factorial. cbn [JsNumber.eqb orb].
    change (JsNumber.eqb (infinity false) (of_Z 0)) with false.
    change (JsNumber.eqb (infinity false) (of_Z 1)) with false.
    cbn [orb]. apply loop_to_infinity. reflexivity.
  - intros s H. unfold factorial_button. rewrite H.
    change (parseFloat (lit "Infinity")) with (infinity false).
    unfold factorial.
    change (JsNumber.eqb (infinity false) (of_Z 0)) with false.
    change (JsNumber.eqb (infinity false) (of_Z 1)) with false.
    cbn [orb]. rewrite loop_to_infinity; reflexivity.
Qed.

End OlderFactorial.

(** ** More theorems at work on concrete inputs *)

Section MoreInstances.

Import Calculator Spec Examples.

Lemma history_step_witness :
  (List.length (history seven_plus_three) <= MAX_HISTORY)%nat
  /\ history (step math_unused seven_plus_three Clear)
     = history seven_plus_three.
Proof.
  split; [apply Nat.le_0_l|].
  apply (proj2 (history_step math_unused seven_plus_three Clear
                  (Nat.le_0_l MAX_HISTORY))).
Defined.

Lemma history_bounded_witness :
  reachable math_unused init
  /\ (List.length (history init) <= MAX_HISTORY)%nat.
Proof.
  split; [apply reachable_init|].
  apply (history_bounded math_unused init). apply reachable_init.
Defined.


Lemma addDecimal_once_witness :
  includes (currentInput seven_plus_three) (chr ".") = false
  /\ currentInput (fst (addDecimal seven_plus_three)) = lit "3.".
Proof.
  split; [reflexivity|].
  apply (proj1 (proj2 (proj2 (addDecimal_once seven_plus_three)))).
  reflexivity.
Defined.

Lemma digit_after_calculate_witness :
  base_check (currentBase seven_plus_three) [chr "4"] = None
  /\ resetScreen seven_plus_three = false
  /\ currentInput (fst (calculate math_unused seven_plus_three)) <> lit "0"
  /\ currentInput
       (fst (handleNumberButton [chr "4"]
               (fst (calculate math_unused seven_plus_three))))
     = currentInput (fst (calculate math_unused seven_plus_three))
       ++ [chr "4"].
Proof.
  split; [reflexivity|]. split; [reflexivity|].
  split; [vm_compute; discriminate|].
  apply (proj2 (digit_after_calculate math_unused (chr "4")
                  seven_plus_three)).
  - reflexivity.
  - reflexivity.
  - vm_compute. discriminate.
Defined.

Lemma handleConversion_frame_witness :
  forallb is_space (lit "  ") = true
  /\ handleConversion dec2bin (lit "  ") init
     = (init, [ConversionResult ENTER_A_NUMBER]).
Proof.
  split; [reflexivity|].
  apply (proj1 (handleConversion_frame dec2bin (lit "  ") init)).
  reflexivity.
Defined.

Lemma convertBase_value_witness :
  [0; 0; 1; 5] <> [] /\ Forall (fun d => 0 <= d < radix_of hex) [0; 0; 1; 5]
  /\ of_digits (radix_of hex) [0; 0; 1; 5] < 2 ^ 53
  /\ convertBase (List.map digit_char [0; 0; 1; 5]) hex bin
     = digit_string (radix_of bin) (of_digits (radix_of hex) [0; 0; 1; 5]).
Proof.
  split; [discriminate|].
  assert (F : Forall (fun d => 0 <= d < radix_of hex) [0; 0; 1; 5])
    by (repeat constructor; discriminate).
  split; [exact F|]. split; [reflexivity|].
  apply (convertBase_value hex bin digit_char [0; 0; 1; 5]).
  - intros d. left. reflexivity.
  - discriminate.
  - exact F.
  - reflexivity.
Defined.

Lemma convertBase_round_trip_from_witness :
  0 <= 255 < 2 ^ 53
  /\ convertBase (convertBase (toUpperCase (digit_string 16 255)) hex dec)
       dec hex
     = toUpperCase (digit_string 16 255).
Proof.
  split; [split; [discriminate | reflexivity]|].
  apply (proj2 (convertBase_round_trip_from hex 255
                  ltac:(split; [discriminate | reflexivity]))).
Defined.

Lemma convertBase_invalid_witness :
  snd (take_sign (trimStart (lit " -9"))) = [chr "9"]
  /\ digit_in (radix_of oct) (chr "9") = None
  /\ convertBase (lit " -9") oct dec = INVALID_INPUT.
Proof.
  split; [reflexivity|]. split; [reflexivity|].
  apply (convertBase_invalid (lit " -9") oct dec).
  right. exists (chr "9"), []. split; reflexivity.
Defined.

Lemma pool_bounded_exclusive_witness :
  Pools.reachable 20 (Pools.step Pools.RipplePool Pools.Create)
  /\ (List.length (Pools.free (Pools.step Pools.RipplePool Pools.Create))
      <= 20)%nat.
Proof.
  assert (R : Pools.reachable 20 (Pools.step Pools.RipplePool Pools.Create))
    by (apply Pools.reachable_step, Pools.reachable_init).
  split; [exact R|].
  apply (proj1 (pool_bounded_exclusive 20 _ R)).
Defined.

Lemma getNeighborButtons_symmetric_witness :
  Grid.gridColumns false <> O
  /\ Grid.getNeighborButtons (Grid.gridColumns false) 20 5 0 = [].
Proof.
  split; [discriminate|].
  apply (proj1 (proj2 (proj2
           (getNeighborButtons_symmetric (Grid.gridColumns false) 20 0 5 6
              ltac:(discriminate))))).
Defined.

Lemma getAdjacentButtons_bounds_witness :
  0 <= 17 < 18
  /\ ~ In (Some 17) (Grid.getAdjacentButtons 18 17).
Proof.
  split; [split; [discriminate | reflexivity]|].
  apply (proj1 (getAdjacentButtons_bounds 18 17
                  ltac:(split; [discriminate | reflexivity]))).
Defined.

Lemma window_keeps_latest_witness :
  (List.length [1; 2]%nat <= 3)%nat
  /\ fold_left (fun w x => Telemetry.push_capped 3 x w) [3; 4; 5]%nat
       [1; 2]%nat
     = skipn (List.length ([1; 2] ++ [3; 4; 5])%nat - 3)
         ([1; 2] ++ [3; 4; 5])%nat.
Proof.
  split; [repeat constructor|].
  apply (proj1 (window_keeps_latest nat 3 [3; 4; 5]%nat [1; 2]%nat
                  ltac:(repeat constructor))).
Defined.

Lemma older_factorial_unguarded_witness :
  leb (of_Z 2) (parseFloat (lit "-3")) = false
  /\ LegacyFactorial.factorial 1 (parseFloat (lit "-3")) = Some (of_Z 1).
Proof.
  split; [reflexivity|].
  apply (proj1 (older_factorial_unguarded 0) (parseFloat (lit "-3"))).
  reflexivity.
Defined.

End MoreInstances.

(** ** Exact arithmetic on small integers *)

Section ExactArithmetic.

Lemma iter_pos_iter (f : shr_record -> shr_record) (p : positive) :
  forall x, iter_pos f p x = Pos.iter f x p.
Proof.
  induction p as [p IH | p IH |]; intros x; cbn [iter_pos Pos.iter].
  - rewrite !IH, !Pos.iter_swap. reflexivity.
  - rewrite !IH. reflexivity.
  - reflexivity.
Qed.

(** Shifting out zeros is exact. *)
Lemma shr_exact (q k : positive) :
  iter_pos shr_1 k (Build_shr_record (Zpos (Pos.iter xO q k)) false false)
  = Build_shr_record (Zpos q) false false.
Proof.
  rewrite iter_pos_iter. revert q.
  induction k as [|k IH] using Pos.peano_ind; intros q.
  - reflexivity.
  - rewrite !Pos.iter_succ, <- Pos.iter_swap. cbn [shr_1 orb].
    apply IH.
Qed.

Lemma of_Z_shape (n : Z) :
  0 < n < 2 ^ 53 ->
  exists m e, of_Z n = S754_finite false m e
              /\ Zpos (digits2_pos m) = 53
              /\ -52 <= e <= 0 /\ Zpos m = n * 2 ^ (- e).
Proof.
  intros [Hpos Hlt]. destruct n as [|p|p]; try lia.
  pose proof (size_bounds p) as [Hlo _].
  assert (Hd : Zpos (digits2_pos p) <= 53).
  { destruct (Z_le_gt_dec (Zpos (digits2_pos p)) 53) as [H|H]; [exact H|].
    assert (2 ^ 53 <= 2 ^ (Zpos (digits2_pos p) - 1))
      by (apply Z.pow_le_mono_r; lia).
    lia. }
  unfold of_Z, binary_normalize, binary_round.
  rewrite fexp_normal by lia.
  unfold shl_align.
  destruct (Zpos (digits2_pos p) + 0 - 53 - 0) as [|k|k] eqn:Ek; try lia.
  - exists p, 0. rewrite canonical_round by lia.
    repeat split; try lia.
  - exists (Pos.iter xO p k), (Zpos (digits2_pos p) + 0 - 53).
    assert (Hk : Zpos (digits2_pos (Pos.iter xO p k)) = 53)
      by (rewrite iter_xO_digits; lia).
    rewrite canonical_round by lia.
    repeat split; try lia. rewrite iter_xO_value. f_equal. f_equal. lia.
Qed.

(** A Number of 53 bits whose value is a small integer is the Number of
    that integer. *)
Lemma of_Z_canonical (n : Z) (m : positive) (e : Z) :
  0 < n < 2 ^ 53 -> Zpos (digits2_pos m) = 53 -> e <= 0 ->
  Zpos m = n * 2 ^ (- e) ->
  of_Z n = S754_finite false m e.
Proof.
  intros Hn Hd He Hm.
  destruct (of_Z_shape n Hn) as (m' & e' & -> & Hd' & He' & Hm').
  pose proof (size_bounds m) as Hb. pose proof (size_bounds m') as Hb'.
  rewrite Hd in Hb. rewrite Hd' in Hb'.
  change (2 ^ (53 - 1)) with 4503599627370496 in *.
  change (2 ^ 53) with 9007199254740992 in *.
  assert (Ee : e' = e).
  { destruct (Z.lt_trichotomy e e') as [Hlt | [Heq | Hgt]];
      [exfalso | now symmetry | exfalso].
    - assert (E : 2 ^ (- e) = 2 ^ (- e') * 2 ^ (e' - e))
        by (rewrite <- Z.pow_add_r by lia; f_equal; lia).
      assert (2 <= 2 ^ (e' - e))
        by (change 2 with (2 ^ 1) at 1; apply Z.pow_le_mono_r; lia).
      assert (0 < 2 ^ (- e')) by (apply Z.pow_pos_nonneg; lia).
      nia.
    - assert (E : 2 ^ (- e') = 2 ^ (- e) * 2 ^ (e - e'))
        by (rewrite <- Z.pow_add_r by lia; f_equal; lia).
      assert (2 <= 2 ^ (e - e'))
        by (change 2 with (2 ^ 1) at 1; apply Z.pow_le_mono_r; lia).
      assert (0 < 2 ^ (- e)) by (apply Z.pow_pos_nonneg; lia).
      nia. }
  subst e'. f_equal. apply Pos2Z.inj. congruence.
Qed.

(** Rounding is exact on a mantissa of 53 bits or more that writes a small
    integer. *)
Lemma round_exact_integer (n mx e : Z) :
  0 < n < 2 ^ 53 -> e <= 0 -> mx = n * 2 ^ (- e) -> 2 ^ 52 <= mx ->
  binary_round_aux prec emax false mx e loc_Exact = of_Z n.
Proof.
  intros Hn He Hm Hbig.
  assert (Hp : 0 < 2 ^ (- e)) by (apply Z.pow_pos_nonneg; lia).
  destruct mx as [|M|M]; try lia.
  pose proof (size_bounds M) as [Hlo Hhi].
  set (d := Zpos (digits2_pos M)) in *.
  assert (Hd1 : 53 <= d).
  { destruct (Z_le_gt_dec 53 d) as [H|H]; [exact H|].
    assert (2 ^ d <= 2 ^ 52) by (apply Z.pow_le_mono_r; lia). lia. }
  assert (Hd2 : d + e <= 53).
  { destruct (Z_le_gt_dec (d + e) 53) as [H|H]; [exact H|].
    assert (2 ^ 53 * 2 ^ (- e) <= 2 ^ (d - 1)).
    { rewrite <- Z.pow_add_r by lia. apply Z.pow_le_mono_r; lia. }
    nia. }
  assert (Hd3 : 1 <= d + e).
  { destruct (Z_le_gt_dec 1 (d + e)) as [H|H]; [exact H|].
    assert (2 ^ d <= 2 ^ (- e)) by (apply Z.pow_le_mono_r; lia). nia. }
  destruct (Z.eq_dec d 53) as [E53 | Hne].
  - rewrite canonical_round by (fold d; lia).
    symmetry. apply of_Z_canonical; auto.
  - assert (Hsh : exists k, Zpos k = d - 53).
    { exists (Z.to_pos (d - 53)). rewrite Z2Pos.id; lia. }
    destruct Hsh as [k Hk].
    assert (Hq : exists q, M = Pos.iter xO q k).
    { exists (Z.to_pos (n * 2 ^ (- e - Zpos k))).
      apply Pos2Z.inj. rewrite iter_xO_value.
      assert (0 < 2 ^ (- e - Zpos k)) by (apply Z.pow_pos_nonneg; lia).
      rewrite Z2Pos.id by nia. rewrite Hm, <- Z.mul_assoc.
      rewrite <- Z.pow_add_r by lia. f_equal. f_equal. lia. }
    destruct Hq as [q Hq].
    assert (Hdq : Zpos (digits2_pos q) = 53).
    { unfold d in Hk. rewrite Hq, iter_xO_digits in Hk. lia. }
    unfold binary_round_aux, shr_fexp. cbn [Zdigits2]. fold d.
    rewrite fexp_normal by lia.
    replace (d + e - 53 - e) with (Zpos k) by lia.
    cbn [shr shr_record_of_loc]. rewrite Hq, shr_exact.
    cbn [shr_m loc_of_shr_record round_nearest_even Zdigits2].
    rewrite Hdq, fexp_normal by lia.
    replace (53 + (e + Zpos k) - 53 - (e + Zpos k)) with 0 by lia.
    cbn [shr shr_record_of_loc shr_m].
    assert (E : (e + Zpos k <=? emax - prec) = true)
      by (apply Z.leb_le; unfold emax, prec; lia).
    rewrite E. symmetry. apply of_Z_canonical; auto; try lia.
    assert (Hv : Zpos M = Zpos q * 2 ^ Zpos k)
      by (rewrite Hq; apply iter_xO_value).
    assert (Hs : 2 ^ (- e) = 2 ^ (- (e + Zpos k)) * 2 ^ Zpos k)
      by (rewrite <- Z.pow_add_r by lia; f_equal; lia).
    assert (0 < 2 ^ Zpos k) by (apply Z.pow_pos_nonneg; lia).
    rewrite Hs in Hm. nia.
Qed.

(** The same for [binary_normalize], whatever the length of the
    mantissa. *)
Lemma normalize_exact_integer (n mx e : Z) :
  0 <= n < 2 ^ 53 -> e <= 0 -> mx = n * 2 ^ (- e) ->
  binary_normalize prec emax mx e false = of_Z n.
Proof.
  intros Hn He Hm.
  assert (Hp : 0 < 2 ^ (- e)) by (apply Z.pow_pos_nonneg; lia).
  destruct (Z.eq_dec n 0) as [-> | Hn0].
  { subst mx. reflexivity. }
  destruct mx as [|M|M]; try nia.
  pose proof (size_bounds M) as [Hlo Hhi].
  set (d := Zpos (digits2_pos M)) in *.
  assert (Hd2 : d + e <= 53).
  { destruct (Z_le_gt_dec (d + e) 53) as [H|H]; [exact H|].
    assert (2 ^ 53 * 2 ^ (- e) <= 2 ^ (d - 1)).
    { rewrite <- Z.pow_add_r by lia. apply Z.pow_le_mono_r; lia. }
    nia. }
  assert (Hd3 : 1 <= d + e).
  { destruct (Z_le_gt_dec 1 (d + e)) as [H|H]; [exact H|].
    assert (2 ^ d <= 2 ^ (- e)) by (apply Z.pow_le_mono_r; lia). nia. }
  unfold binary_normalize, binary_round. fold d.
  rewrite fexp_normal by lia. unfold shl_align.
  destruct (d + e - 53 - e) as [|k|k] eqn:Ek.
  - apply round_exact_integer; auto; try lia.
    assert (2 ^ 52 <= 2 ^ (d - 1)) by (apply Z.pow_le_mono_r; lia). lia.
  - apply round_exact_integer; auto; try lia.
    assert (2 ^ 52 <= 2 ^ (d - 1)) by (apply Z.pow_le_mono_r; lia). lia.
  - assert (Hk : Zpos (digits2_pos (Pos.iter xO M k)) = 53)
      by (rewrite iter_xO_digits; fold d; lia).
    rewrite canonical_round by lia.
    symmetry. apply of_Z_canonical; auto; try lia.
    rewrite iter_xO_value, Hm, <- Z.mul_assoc, <- Z.pow_add_r by lia.
    f_equal. f_equal. lia.
Qed.

Lemma shl_align_value (m : positive) (e ez : Z) :
  ez <= e -> Zpos (fst (shl_align m e ez)) = Zpos m * 2 ^ (e - ez).
Proof.
  intros H. unfold shl_align.
  destruct (ez - e) as [|k|k] eqn:Ek; cbn [fst]; try lia.
  - replace (e - ez) with 0 by lia. lia.
  - rewrite iter_xO_value. f_equal. f_equal. lia.
Qed.

(** Sums, differences and products of integers are exact as long as they
    stay below 2^53. *)
Lemma add_exact (a b : Z) :
  0 <= a -> 0 <= b -> a + b < 2 ^ 53 ->
  add (of_Z a) (of_Z b) = of_Z (a + b).
Proof.
  intros Ha Hb Hs.
  destruct (Z.eq_dec a 0) as [-> | Ha0].
  { rewrite Z.add_0_l.
    destruct (Z.eq_dec b 0) as [-> | Hb0]; [reflexivity|].
    destruct (of_Z_shape b) as (m & e & -> & _); [lia | reflexivity]. }
  destruct (Z.eq_dec b 0) as [-> | Hb0].
  { rewrite Z.add_0_r.
    destruct (of_Z_shape a) as (m & e & -> & _); [lia | reflexivity]. }
  destruct (of_Z_shape a) as (ma & ea & -> & _ & Hea & Hma); [lia|].
  destruct (of_Z_shape b) as (mb & eb & -> & _ & Heb & Hmb); [lia|].
  unfold add, SFadd, cond_Zopp.
  apply normalize_exact_integer; try lia.
  rewrite !shl_align_value, Hma, Hmb by lia.
  rewrite <- !Z.mul_assoc, <- !Z.pow_add_r by lia.
  replace (- ea + (ea - Z.min ea eb)) with (- Z.min ea eb) by lia.
  replace (- eb + (eb - Z.min ea eb)) with (- Z.min ea eb) by lia.
  ring.
Qed.

Lemma sub_exact (a b : Z) :
  0 <= b <= a -> a < 2 ^ 53 -> sub (of_Z a) (of_Z b) = of_Z (a - b).
Proof.
  intros Hb Ha.
  destruct (Z.eq_dec b 0) as [-> | Hb0].
  { rewrite Z.sub_0_r. destruct (Z.eq_dec a 0) as [-> | Ha0]; [reflexivity|].
    destruct (of_Z_shape a) as (m & e & -> & _); [lia | reflexivity]. }
  destruct (of_Z_shape a) as (ma & ea & -> & _ & Hea & Hma); [lia|].
  destruct (of_Z_shape b) as (mb & eb & -> & _ & Heb & Hmb); [lia|].
  unfold sub, SFsub, cond_Zopp.
  apply normalize_exact_integer; try lia.
  rewrite !shl_align_value, Hma, Hmb by lia.
  rewrite <- !Z.mul_assoc, <- !Z.pow_add_r by lia.
  replace (- ea + (ea - Z.min ea eb)) with (- Z.min ea eb) by lia.
  replace (- eb + (eb - Z.min ea eb)) with (- Z.min ea eb) by lia.
  ring.
Qed.

Lemma mul_exact (a b : Z) :
  0 <= a -> 0 <= b -> a < 2 ^ 53 -> b < 2 ^ 53 -> a * b < 2 ^ 53 ->
  mul (of_Z a) (of_Z b) = of_Z (a * b).
Proof.
  intros Ha Hb Ha' Hb' Hs.
  destruct (Z.eq_dec a 0) as [-> | Ha0].
  { rewrite Z.mul_0_l.
    destruct (Z.eq_dec b 0) as [-> | Hb0]; [reflexivity|].
    destruct (of_Z_shape b) as (m & e & -> & _); [lia | reflexivity]. }
  destruct (Z.eq_dec b 0) as [-> | Hb0].
  { rewrite Z.mul_0_r.
    destruct (of_Z_shape a) as (m & e & -> & _); [lia | reflexivity]. }
  destruct (of_Z_shape a) as (ma & ea & -> & Hda & Hea & Hma); [lia|].
  destruct (of_Z_shape b) as (mb & eb & -> & Hdb & Heb & Hmb); [lia|].
  pose proof (size_bounds ma) as Hba. pose proof (size_bounds mb) as Hbb.
  rewrite Hda in Hba. rewrite Hdb in Hbb.
  change (2 ^ (53 - 1)) with 4503599627370496 in *.
  unfold mul, SFmul. cbn [xorb].
  assert (Hv : Zpos (ma * mb) = a * b * 2 ^ (- (ea + eb))).
  { rewrite Pos2Z.inj_mul, Hma, Hmb.
    replace (- (ea + eb)) with (- ea + - eb) by lia.
    rewrite Z.pow_add_r by lia. ring. }
  assert (Hbig : 2 ^ 52 <= Zpos (ma * mb)).
  { rewrite Pos2Z.inj_mul. change (2 ^ 52) with 4503599627370496. nia. }
  apply round_exact_integer; [nia | lia | exact Hv | exact Hbig].
Qed.

End ExactArithmetic.

(** ** Reading and writing integers on the display *)

Section IntegerDisplay.

Lemma decimal_char_facts (d : Z) :
  0 <= d < 10 ->
  N.eqb (chr "I") (digit_char d) = false
  /\ is_space (digit_char d) = false
  /\ N.eqb (digit_char d) (chr "-") = false
  /\ N.eqb (digit_char d) (chr "+") = false
  /\ digit_in 10 (digit_char d) = Some d.
Proof.
  intros Hd.
  assert (E : d = 0 \/ d = 1 \/ d = 2 \/ d = 3 \/ d = 4 \/ d = 5 \/ d = 6
              \/ d = 7 \/ d = 8 \/ d = 9) by lia.
  repeat (destruct E as [E | E]; [subst d; repeat split; reflexivity|]).
  subst d; repeat split; reflexivity.
Qed.

Lemma take_digits_decimal (ds : list Z) (rest : str) :
  Forall (fun d => 0 <= d < 10) ds ->
  match rest with
  | [] => True
  | c :: _ => digit_in 10 c = None
  end ->
  take_digits 10 (List.map digit_char ds ++ rest) = (ds, rest).
Proof.
  intros Hds Hrest. induction Hds as [|d ds Hd _ IH]; cbn [List.map app].
  - destruct rest as [|c rest]; [reflexivity|].
    cbn [take_digits]. now rewrite Hrest.
  - cbn [take_digits].
    destruct (decimal_char_facts d Hd) as (_ & _ & _ & _ & ->).
    now rewrite IH.
Qed.

(** [parseFloat] on digits, a point and more digits. *)
Lemma parseFloat_fixed (ds zs : list Z) :
  ds <> [] ->
  Forall (fun d => 0 <= d < 10) ds -> Forall (fun d => 0 <= d < 10) zs ->
  parseFloat (List.map digit_char ds
              ++ match zs with
                 | [] => []
                 | _ => chr "." :: List.map digit_char zs
                 end)
  = of_decimal (of_digits 10 (ds ++ zs)) (- Z.of_nat (List.length zs)).
Proof.
  intros Hne Hds Hzs. destruct ds as [|d0 ds]; [congruence|].
  inversion Hds as [|? ? Hd0 Hds']; subst.
  destruct (decimal_char_facts d0 Hd0) as (HI & Hsp & Hm & Hp & _).
  unfold parseFloat. cbn [List.map app trimStart]. rewrite Hsp.
  cbn [take_sign]. rewrite Hm, Hp.
  change (lit "Infinity") with (chr "I" :: lit "nfinity").
  cbn [startsWith]. rewrite HI. cbn [andb].
  change (digit_char d0 :: List.map digit_char ds ++
          match zs with
          | [] => []
          | _ :: _ => chr "." :: List.map digit_char zs
          end)
    with (List.map digit_char (d0 :: ds) ++
          match zs with
          | [] => []
          | _ :: _ => chr "." :: List.map digit_char zs
          end).
  destruct zs as [|z zs].
  - rewrite take_digits_decimal by (auto; exact I).
    cbn [app]. rewrite !app_nil_r. reflexivity.
  - rewrite take_digits_decimal by (auto; reflexivity).
    rewrite N.eqb_refl.
    rewrite <- (app_nil_r (List.map digit_char (z :: zs))).
    rewrite take_digits_decimal by (auto; exact I).
    cbn [app take_exponent with_sign]. reflexivity.
Qed.

Lemma of_digits_zeros (ds : list Z) (q : nat) :
  of_digits 10 (ds ++ repeat 0 q) = of_digits 10 ds * 10 ^ Z.of_nat q.
Proof.
  induction q as [|q IH].
  - cbn [repeat]. rewrite app_nil_r. cbn. lia.
  - cbn [repeat]. rewrite repeat_cons, app_assoc, of_digits_snoc by lia.
    rewrite IH, Nat2Z.inj_succ, Z.pow_succ_r by lia. ring.
Qed.

(** [parseFloat] reads the decimal numeral of an integer as its Number. *)
Lemma parseFloat_integer (n : Z) :
  0 <= n -> parseFloat (digit_string 10 n) = of_Z n.
Proof.
  intros Hn. unfold digit_string.
  rewrite <- (app_nil_r (List.map digit_char (digits 10 n))).
  rewrite (parseFloat_fixed (digits 10 n) []).
  - rewrite app_nil_r, of_digits_digits by lia.
    cbn [List.length Z.of_nat Z.opp]. unfold of_decimal.
    destruct n as [|p|p]; try lia; [reflexivity|].
    cbn [Z.leb Z.compare]. now rewrite Z.pow_0_r, Z.mul_1_r.
  - apply digits_nonempty.
  - apply digits_in_range; lia.
  - constructor.
Qed.

(** The quotient of a multiple is exact. *)
Lemma div_exact_integer (n c : Z) (m : positive) :
  0 < n < 2 ^ 53 -> 0 < c -> Zpos m = n * c ->
  div (S754_finite false m 0) (S754_finite false (Z.to_pos c) 0) = of_Z n.
Proof.
  intros Hn Hc Hm. unfold div, SFdiv, SFdiv_core_binary. cbn [xorb Zdigits2].
  pose proof (size_bounds m) as [Hlo1 Hhi1].
  pose proof (size_bounds (Z.to_pos c)) as [Hlo2 Hhi2].
  rewrite Z2Pos.id in * by lia.
  set (d1 := Zpos (digits2_pos m)) in *.
  set (d2 := Zpos (digits2_pos (Z.to_pos c))) in *.
  assert (Hd1 : 1 <= d1) by (unfold d1; lia).
  assert (Hd2 : 1 <= d2) by (unfold d2; lia).
  assert (Hx1 : d1 - d2 <= 53).
  { destruct (Z_le_gt_dec (d1 - d2) 53) as [H|H]; [exact H|].
    assert (2 ^ 53 * 2 ^ d2 <= 2 ^ (d1 - 1)).
    { rewrite <- Z.pow_add_r by lia. apply Z.pow_le_mono_r; lia. }
    nia. }
  assert (Hx0 : 0 <= d1 - d2).
  { destruct (Z_le_gt_dec 0 (d1 - d2)) as [H|H]; [exact H|].
    assert (2 ^ d1 <= 2 ^ (d2 - 1)) by (apply Z.pow_le_mono_r; lia).
    nia. }
  replace (d1 + 0 - (d2 + 0)) with (d1 - d2) by lia.
  rewrite fexp_normal by lia.
  replace (Z.min (d1 - d2 - 53) (0 - 0)) with (d1 - d2 - 53) by lia.
  set (t := 53 - (d1 - d2)).
  replace (0 - 0 - (d1 - d2 - 53)) with t by (unfold t; lia).
  assert (Ht : 0 <= t) by (unfold t; lia).
  assert (Hpt : 0 < 2 ^ t) by (apply Z.pow_pos_nonneg; lia).
  assert (Hm' : match t with
                | Z0 => Zpos m
                | Zpos _ => Z.shiftl (Zpos m) t
                | Zneg _ => 0
                end = n * 2 ^ t * c).
  { destruct t as [|k|k] eqn:Et; [rewrite Hm; lia | | lia].
    rewrite Z.shiftl_mul_pow2, Hm by lia. ring. }
  rewrite Hm'.
  destruct (Z.div_eucl (n * 2 ^ t * c) c) as [qq r] eqn:E.
  assert (Eq : qq = n * 2 ^ t).
  { change qq with (fst (qq, r)). rewrite <- E.
    change (fst (Z.div_eucl (n * 2 ^ t * c) c)) with (n * 2 ^ t * c / c).
    apply Z.div_mul. lia. }
  assert (Er : r = 0).
  { change r with (snd (qq, r)). rewrite <- E.
    change (snd (Z.div_eucl (n * 2 ^ t * c) c)) with ((n * 2 ^ t * c) mod c).
    apply Z.mod_mul. lia. }
  subst qq r.
  assert (El : new_location c 0 = loc_Exact).
  { unfold new_location, new_location_even, new_location_odd.
    destruct (Z.even c); reflexivity. }
  rewrite El.
  apply round_exact_integer; try lia.
  - f_equal. f_equal. unfold t. lia.
  - destruct (Z_le_gt_dec d1 53) as [Hs | Hs].
    + assert (E1 : 2 ^ t = 2 ^ d2 * 2 ^ (53 - d1))
        by (rewrite <- Z.pow_add_r by lia; f_equal; unfold t; lia).
      assert (E2 : 2 ^ 52 = 2 ^ (d1 - 1) * 2 ^ (53 - d1))
        by (rewrite <- Z.pow_add_r by lia; f_equal; lia).
      assert (0 < 2 ^ (53 - d1)) by (apply Z.pow_pos_nonneg; lia).
      rewrite E1, E2. nia.
    + assert (E1 : 2 ^ d2 = 2 ^ t * 2 ^ (d1 - 53))
        by (rewrite <- Z.pow_add_r by lia; f_equal; unfold t; lia).
      assert (E2 : 2 ^ (d1 - 1) = 2 ^ 52 * 2 ^ (d1 - 53))
        by (rewrite <- Z.pow_add_r by lia; f_equal; lia).
      assert (0 < 2 ^ (d1 - 53)) by (apply Z.pow_pos_nonneg; lia).
      rewrite E1 in Hhi2. rewrite E2 in Hlo1. nia.
Qed.

End IntegerDisplay.

(** ** Integer calculations *)

Section IntegerCalculations.

Import Calculator Spec.

Variable Math : MathLib.

(** [toPrecision(12)] writes an integer of at most twelve digits with its
    digits, a point and zeros up to twelve digits. *)
Lemma toPrecision_integer (n : Z) :
  0 < n < 10 ^ 12 ->
  toPrecision (of_Z n) 12
  = digit_string 10 n
    ++ match repeat 0 (12 - List.length (digits 10 n)) with
       | [] => []
       | zs => chr "." :: List.map digit_char zs
       end.
Proof.
  intros Hn.
  assert (H53 : 0 < n < 2 ^ 53)
    by (change (10 ^ 12) with 1000000000000 in Hn;
        change (2 ^ 53) with 9007199254740992; lia).
  destruct (of_Z_small n H53) as (m & e & -> & He & Hm).
  destruct (digits_length 10 ltac:(lia) n ltac:(lia)) as (HD & Hlo & Hhi).
  set (L := List.length (digits 10 n)) in *.
  set (D := Z.of_nat L) in *.
  assert (HD12 : D <= 12).
  { assert (H : 10 ^ (D - 1) < 10 ^ 12) by lia.
    apply Z.pow_lt_mono_r_iff in H; lia. }
  unfold toPrecision. rewrite (fraction_small n) by lia.
  unfold decimal_exponent.
  assert (E1 : (1 <=? n) = true) by (apply Z.leb_le; lia).
  rewrite E1, Z.div_1_r. fold L. fold D.
  replace (12 - 1 - (D - 1)) with (12 - D) by lia.
  unfold scale_floor, scale_compare2.
  assert (E2 : (0 <=? 12 - D) = true) by (apply Z.leb_le; lia).
  rewrite E2, Z.div_1_r.
  assert (Hq : 0 < 10 ^ (12 - D)) by (apply Z.pow_pos_nonneg; lia).
  assert (E3 : (2 * n * 10 ^ (12 - D)
                ?= (2 * (n * 10 ^ (12 - D)) + 1) * 1) = Lt)
    by (apply Z.compare_lt_iff; lia).
  rewrite E3.
  assert (Hprod : n * 10 ^ (12 - D) < 10 ^ 12).
  { replace 12 with (D + (12 - D)) at 2 by lia.
    rewrite Z.pow_add_r by lia. nia. }
  assert (E4 : (n * 10 ^ (12 - D) =? 10 ^ 12) = false)
    by (apply Z.eqb_neq; lia).
  rewrite E4. cbn [app]. unfold layout_precision.
  assert (E5 : (D - 1 <? -6) || (12 <=? D - 1) = false).
  { apply orb_false_iff. split; [apply Z.ltb_ge | apply Z.leb_gt]; lia. }
  rewrite E5.
  assert (Eds : digit_string 10 (n * 10 ^ (12 - D))
                = digit_string 10 n
                  ++ List.map digit_char (repeat 0 (12 - L))).
  { unfold digit_string. rewrite <- map_app. f_equal.
    replace (12 - D) with (Z.of_nat (12 - L)) by (unfold D; lia).
    apply digits_shift; lia. }
  destruct (Z.eqb_spec (D - 1) (12 - 1)) as [E12 | E12].
  - rewrite Eds. replace (12 - L)%nat with O by (unfold D in E12; lia).
    reflexivity.
  - assert (E6 : (0 <=? D - 1) = true) by (apply Z.leb_le; lia).
    rewrite E6, Eds.
    replace (Z.to_nat (D - 1 + 1)) with L by (unfold D; lia).
    assert (EL : List.length (digit_string 10 n) = L)
      by (unfold digit_string; now rewrite length_map).
    rewrite firstn_app, skipn_app, EL, Nat.sub_diag.
    rewrite firstn_all2, skipn_all2 by lia.
    cbn [firstn skipn app]. rewrite app_nil_r.
    destruct (12 - L)%nat as [|k] eqn:Ek; [unfold D in *; lia|].
    reflexivity.
Qed.

(** Rounding to twelve digits and reading the text again leaves an integer
    of at most twelve digits as it is. *)
Lemma precision_round_trip (n : Z) :
  0 <= n < 10 ^ 12 -> parseFloat (toPrecision (of_Z n) 12) = of_Z n.
Proof.
  intros Hn. destruct (Z.eq_dec n 0) as [-> | Hn0].
  { vm_compute. reflexivity. }
  assert (H53 : 0 < n < 2 ^ 53)
    by (change (10 ^ 12) with 1000000000000 in Hn;
        change (2 ^ 53) with 9007199254740992; lia).
  rewrite toPrecision_integer by lia.
  destruct (12 - List.length (digits 10 n))%nat as [|q].
  - cbn [repeat]. rewrite app_nil_r. apply parseFloat_integer. lia.
  - assert (Hz : Forall (fun d => 0 <= d < 10) (repeat 0 (S q))).
    { apply Forall_forall. intros d Hd. apply repeat_spec in Hd. lia. }
    pose proof (parseFloat_fixed (digits 10 n) (repeat 0 (S q))
                  (digits_nonempty 10 n)
                  (digits_in_range 10 ltac:(lia) n ltac:(lia)) Hz) as P.
    cbn [repeat] in P. cbn [repeat]. unfold digit_string. rewrite P.
    change (0 :: repeat 0 q) with (repeat 0 (S q)).
    rewrite of_digits_zeros, of_digits_digits, repeat_length by lia.
    assert (Hq : 0 < 10 ^ Z.of_nat (S q)) by (apply Z.pow_pos_nonneg; lia).
    unfold of_decimal.
    destruct (n * 10 ^ Z.of_nat (S q)) as [|p|p] eqn:Ep; try nia.
    assert (E : (0 <=? - Z.of_nat (S q)) = false) by (apply Z.leb_gt; lia).
    rewrite E, Z.opp_involutive.
    apply div_exact_integer; auto.
Qed.

(** X15. With two non-negative integers below 2^53 on the display and in
    the left operand, the equals key shows the exact sum, difference (when
    it is not negative) or product, as long as it has at most twelve
    digits; the pending operation and the left operand are cleared. *)
Theorem calculate_integers (a b r : Z) (s : state) :
  0 <= a < 2 ^ 53 -> 0 <= b < 2 ^ 53 -> 0 <= r < 10 ^ 12 ->
  previousInput s = decimal a -> currentInput s = decimal b ->
  (operation s = Some (lit "+") /\ r = a + b
   \/ operation s = Some (lit "-") /\ r = a - b
   \/ operation s = Some TIMES /\ r = a * b) ->
  let s' := fst (calculate Math s) in
  currentInput s' = decimal r
  /\ operation s' = None /\ previousInput s' = [].
Proof.
  intros Ha Hb Hr Hp Hc Hop.
  assert (H12 : 10 ^ 12 < 2 ^ 53) by reflexivity.
  assert (Hne : truthy (previousInput s) = true).
  { apply truthy_nonempty. rewrite Hp. apply digit_string_nonempty. }
  assert (Hfin : forall x,
            x = of_Z r ->
            let s' := fst (finish_calculation (of_Z a) (of_Z b) x s) in
            currentInput s' = decimal r
            /\ operation s' = None /\ previousInput s' = []).
  { intros x ->. cbv zeta. unfold finish_calculation.
    cbn [fst currentInput operation previousInput addToHistory set_history
         set_previousInput set_operation set_currentInput].
    rewrite precision_round_trip by lia.
    split; [|split; reflexivity].
    apply toString_integer. lia. }
  cbv zeta. unfold calculate. rewrite Hne, Hp, Hc.
  unfold decimal. rewrite !parseFloat_integer by lia.
  destruct Hop as [[Ho ->] | [[Ho ->] | [Ho ->]]]; rewrite Ho;
    cbn [truthy_op truthy lit list_ascii_of_string List.map negb orb
         operation_text].
  - change (JsString.eqb (lit "+") (lit "+")) with true. cbv iota.
    apply Hfin. apply add_exact; lia.
  - change (JsString.eqb (lit "-") (lit "+")) with false.
    change (JsString.eqb (lit "-") (lit "-")) with true. cbv iota.
    apply Hfin. apply sub_exact; lia.
  - change (JsString.eqb TIMES (lit "+")) with false.
    change (JsString.eqb TIMES (lit "-")) with false.
    change (JsString.eqb TIMES TIMES) with true. cbv iota.
    apply Hfin. apply mul_exact; try lia.
Qed.

End IntegerCalculations.

(** ** Squares, cubes and operands that are no numbers *)

Section MoreScience.

Import Calculator Spec.

Variable Math : MathLib.

Lemma scientific_square (value : str) :
  scientificCalculation Math (lit "square") value
  = if isNaN (parseFloat value) then ERROR
    else toString (mul (parseFloat value) (parseFloat value)).
Proof. reflexivity. Qed.

Lemma scientific_cube (value : str) :
  scientificCalculation Math (lit "cube") value
  = if isNaN (parseFloat value) then ERROR
    else toString (mul (mul (parseFloat value) (parseFloat value))
                       (parseFloat value)).
Proof. reflexivity. Qed.

(** X16. The square and the cube of a non-negative integer on the display
    are exact, as decimal numerals, as long as they stay below 2^53. *)
Theorem square_cube_integers (n : Z) :
  0 <= n ->
  (n * n < 2 ^ 53 ->
   scientificCalculation Math (lit "square") (decimal n) = decimal (n * n))
  /\ (n * n * n < 2 ^ 53 ->
      scientificCalculation Math (lit "cube") (decimal n)
      = decimal (n * n * n)).
Proof.
  intros Hn.
  assert (Hsq : n * n < 2 ^ 53 -> n < 2 ^ 53).
  { intros H. destruct (Z.eq_dec n 0) as [-> | H0]; [reflexivity | nia]. }
  split; intros H.
  - rewrite scientific_square. unfold decimal.
    rewrite parseFloat_integer by lia.
    rewrite of_Z_finite by (split; [lia | now apply Hsq]).
    rewrite mul_exact by (try lia; now apply Hsq).
    apply toString_integer. nia.
  - assert (H2 : n * n < 2 ^ 53).
    { destruct (Z.eq_dec n 0) as [-> | H0]; [reflexivity | nia]. }
    rewrite scientific_cube. unfold decimal.
    rewrite parseFloat_integer by lia.
    rewrite of_Z_finite by (split; [lia | now apply Hsq]).
    rewrite (mul_exact n n) by (try lia; now apply Hsq).
    rewrite mul_exact by (try nia; now apply Hsq).
    apply toString_integer. nia.
Qed.

(** X17. When the display does not read as a number (it shows a sentinel,
    say), every scientific function answers the error sentinel, and the
    equals key with a pending addition, subtraction, multiplication or
    division puts "NaN" on the display. *)
Theorem unreadable_operand (s : state) (op : str) :
  isNaN (parseFloat (currentInput s)) = true ->
  (forall func, scientificCalculation Math func (currentInput s) = ERROR)
  /\ (operation s = Some op -> previousInput s <> [] ->
      op = lit "+" \/ op = lit "-" \/ op = TIMES \/ op = DIVIDE ->
      currentInput (fst (calculate Math s)) = lit "NaN").
Proof.
  intros H. split.
  - intros func. unfold scientificCalculation. now rewrite H.
  - intros Ho Hp Hop. apply truthy_nonempty in Hp.
    destruct (parseFloat (currentInput s)) eqn:E; try discriminate H.
    assert (Hfin : forall prev x,
              x = nan ->
              currentInput (fst (finish_calculation prev nan x s))
              = lit "NaN").
    { intros prev x ->. reflexivity. }
    unfold calculate. rewrite Ho, Hp, E.
    assert (Ht : truthy_op (Some op) = true).
    { destruct Hop as [-> | [-> | [-> | ->]]]; reflexivity. }
    rewrite Ht. cbn [negb orb operation_text].
    destruct Hop as [-> | [-> | [-> | ->]]].
    + change (JsString.eqb (lit "+") (lit "+")) with true. cbv iota.
      apply Hfin. destruct (parseFloat (previousInput s)); reflexivity.
    + change (JsString.eqb (lit "-") (lit "+")) with false.
      change (JsString.eqb (lit "-") (lit "-")) with true. cbv iota.
      apply Hfin. destruct (parseFloat (previousInput s)); reflexivity.
    + change (JsString.eqb TIMES (lit "+")) with false.
      change (JsString.eqb TIMES (lit "-")) with false.
      change (JsString.eqb TIMES TIMES) with true. cbv iota.
      apply Hfin. destruct (parseFloat (previousInput s)); reflexivity.
    + change (JsString.eqb DIVIDE (lit "+")) with false.
      change (JsString.eqb DIVIDE (lit "-")) with false.
      change (JsString.eqb DIVIDE TIMES) with false.
      change (JsString.eqb DIVIDE DIVIDE) with true. cbv iota.
      change (JsNumber.eqb nan pos_zero) with false. cbv iota.
      apply Hfin. destruct (parseFloat (previousInput s)); reflexivity.
Qed.

End MoreScience.

(** ** The later theorems at work on concrete inputs *)

Section LaterInstances.

Import Calculator Spec Examples.

Lemma calculate_integers_witness :
  0 <= 7 < 2 ^ 53 /\ 0 <= 3 < 2 ^ 53 /\ 0 <= 10 < 10 ^ 12
  /\ previousInput seven_plus_three = decimal 7
  /\ currentInput seven_plus_three = decimal 3
  /\ operation seven_plus_three = Some (lit "+")
  /\ currentInput (fst (calculate math_unused seven_plus_three))
     = decimal 10.
Proof.
  assert (R7 : 0 <= 7 < 2 ^ 53) by (split; [discriminate | reflexivity]).
  assert (R3 : 0 <= 3 < 2 ^ 53) by (split; [discriminate | reflexivity]).
  assert (R10 : 0 <= 10 < 10 ^ 12) by (split; [discriminate | reflexivity]).
  split; [exact R7|]. split; [exact R3|]. split; [exact R10|].
  split; [reflexivity|]. split; [reflexivity|]. split; [reflexivity|].
  apply (proj1 (calculate_integers math_unused 7 3 10 seven_plus_three
                  R7 R3 R10 eq_refl eq_refl
                  (or_introl (conj eq_refl eq_refl)))).
Defined.

Lemma square_cube_integers_witness :
  0 <= 12 /\ 12 * 12 < 2 ^ 53
  /\ scientificCalculation math_unused (lit "square") (decimal 12)
     = decimal (12 * 12).
Proof.
  split; [discriminate|]. split; [reflexivity|].
  apply (proj1 (square_cube_integers math_unused 12 ltac:(discriminate))).
  reflexivity.
Defined.

Lemma unreadable_operand_witness :
  isNaN (parseFloat (currentInput (set_currentInput ERROR seven_plus_three)))
  = true
  /\ currentInput
       (fst (calculate math_unused
               (set_currentInput ERROR seven_plus_three)))
     = lit "NaN".
Proof.
  split; [reflexivity|].
  apply (proj2 (unreadable_operand math_unused
                  (set_currentInput ERROR seven_plus_three) (lit "+")
                  eq_refl)).
  - reflexivity.
  - discriminate.
  - left. reflexivity.
Defined.

End LaterInstances.

(** ** Exact division *)

Section ExactDivision.

Import Calculator Spec.

Variable Math : MathLib.

(** The quotient of a multiple by its divisor is exact. *)
Lemma div_exact (n b : Z) :
  0 <= n -> 0 < b < 2 ^ 53 -> n * b < 2 ^ 53 ->
  div (of_Z (n * b)) (of_Z b) = of_Z n.
Proof.
  intros Hn Hb Hab.
  destruct (of_Z_shape b Hb) as (mb & eb & Eb & Db & Reb & Vb).
  destruct (Z.eq_dec n 0) as [-> | Hn0].
  { rewrite Z.mul_0_l, Eb. reflexivity. }
  assert (Ha : 0 < n * b < 2 ^ 53) by nia.
  destruct (of_Z_shape (n * b) Ha) as (ma & ea & Ea & Da & Rea & Va).
  rewrite Ea, Eb. unfold div, SFdiv, SFdiv_core_binary. cbn [xorb Zdigits2].
  rewrite Da, Db.
  replace (53 + ea - (53 + eb)) with (ea - eb) by lia.
  rewrite fexp_normal by lia.
  replace (Z.min (ea - eb - 53) (ea - eb)) with (ea - eb - 53) by lia.
  replace (ea - eb - (ea - eb - 53)) with 53 by lia.
  cbv iota.
  pose proof (size_bounds ma) as [Hlo1 _]. rewrite Da in Hlo1.
  pose proof (size_bounds mb) as [_ Hhi2]. rewrite Db in Hhi2.
  change (53 - 1) with 52 in Hlo1.
  set (t := 53 - ea + eb).
  assert (Hpa : 0 < 2 ^ (- ea)) by (apply Z.pow_pos_nonneg; lia).
  assert (Hpb : 0 < 2 ^ (- eb)) by (apply Z.pow_pos_nonneg; lia).
  assert (Hpt : 0 < 2 ^ t) by (apply Z.pow_pos_nonneg; unfold t; lia).
  assert (Hm : Z.shiftl (Zpos ma) 53 = n * 2 ^ t * Zpos mb).
  { rewrite Z.shiftl_mul_pow2, Va, Vb by lia.
    assert (E : 2 ^ (- ea) * 2 ^ 53 = 2 ^ t * 2 ^ (- eb)).
    { rewrite <- !Z.pow_add_r by (unfold t; lia). f_equal. unfold t. lia. }
    transitivity (n * b * (2 ^ (- ea) * 2 ^ 53)); [ring|].
    rewrite E. ring. }
  rewrite Hm.
  destruct (Z.div_eucl (n * 2 ^ t * Zpos mb) (Zpos mb)) as [qq r] eqn:E.
  assert (Eq : qq = n * 2 ^ t).
  { change qq with (fst (qq, r)). rewrite <- E.
    change (fst (Z.div_eucl (n * 2 ^ t * Zpos mb) (Zpos mb)))
      with (n * 2 ^ t * Zpos mb / Zpos mb).
    apply Z.div_mul. lia. }
  assert (Er : r = 0).
  { change r with (snd (qq, r)). rewrite <- E.
    change (snd (Z.div_eucl (n * 2 ^ t * Zpos mb) (Zpos mb)))
      with ((n * 2 ^ t * Zpos mb) mod Zpos mb).
    apply Z.mod_mul. lia. }
  subst qq r.
  assert (El : new_location (Zpos mb) 0 = loc_Exact).
  { unfold new_location, new_location_even, new_location_odd.
    destruct (Z.even (Zpos mb)); reflexivity. }
  rewrite El.
  apply round_exact_integer.
  - nia.
  - lia.
  - f_equal. f_equal. unfold t. lia.
  - assert (Hs : Z.shiftl (Zpos ma) 53 = Zpos ma * 2 ^ 53)
      by (apply Z.shiftl_mul_pow2; lia).
    rewrite Hs in Hm.
    assert (H53 : 0 < 2 ^ 53) by reflexivity.
    assert (H52 : 2 * 2 ^ 52 = 2 ^ 53) by reflexivity.
    nia.
Qed.

Lemma of_Z_not_zero (b : Z) :
  0 < b < 2 ^ 53 -> JsNumber.eqb (of_Z b) pos_zero = false.
Proof.
  intros Hb. destruct (of_Z_shape b Hb) as (m & e & -> & _). reflexivity.
Qed.

(** The end of [calculate] on a result that is an integer of at most
    twelve digits. *)
Lemma finish_calculation_integer (p c : number) (r : Z) (s : state) :
  0 <= r < 10 ^ 12 ->
  let s' := fst (finish_calculation p c (of_Z r) s) in
  currentInput s' = decimal r
  /\ operation s' = None /\ previousInput s' = [].
Proof.
  intros Hr. cbv zeta. unfold finish_calculation.
  cbn [fst currentInput operation previousInput addToHistory set_history
       set_previousInput set_operation set_currentInput].
  rewrite precision_round_trip by lia.
  split; [|split; reflexivity].
  assert (H12 : 10 ^ 12 < 2 ^ 53) by reflexivity.
  apply toString_integer. lia.
Qed.

(** [calculate] on two integer operands whose result is an integer of at
    most twelve digits. *)
Lemma calculate_exact (a b r : Z) (op : str) (s : state) :
  0 <= a < 2 ^ 53 -> 0 <= b < 2 ^ 53 -> 0 <= r < 10 ^ 12 ->
  previousInput s = decimal a -> currentInput s = decimal b ->
  operation s = Some op ->
  (op = lit "+" /\ r = a + b
   \/ op = lit "-" /\ r = a - b
   \/ op = TIMES /\ r = a * b
   \/ op = DIVIDE /\ 0 < b /\ a = r * b) ->
  let s' := fst (calculate Math s) in
  currentInput s' = decimal r
  /\ operation s' = None /\ previousInput s' = [].
Proof.
  intros Ha Hb Hr Hp Hc Ho Hop.
  assert (H12 : 10 ^ 12 < 2 ^ 53) by reflexivity.
  assert (Hne : truthy (previousInput s) = true).
  { apply truthy_nonempty. rewrite Hp. apply digit_string_nonempty. }
  cbv zeta. unfold calculate. rewrite Hne, Hp, Hc, Ho.
  unfold decimal. rewrite !parseFloat_integer by lia.
  destruct Hop as [[-> ->] | [[-> ->] | [[-> ->] | (-> & Hb0 & ->)]]];
    cbn [truthy_op truthy lit list_ascii_of_string List.map negb orb
         operation_text].
  - change (JsString.eqb (lit "+") (lit "+")) with true. cbv iota.
    rewrite add_exact by lia. apply finish_calculation_integer. lia.
  - change (JsString.eqb (lit "-") (lit "+")) with false.
    change (JsString.eqb (lit "-") (lit "-")) with true. cbv iota.
    rewrite sub_exact by lia. apply finish_calculation_integer. lia.
  - change (JsString.eqb TIMES (lit "+")) with false.
    change (JsString.eqb TIMES (lit "-")) with false.
    change (JsString.eqb TIMES TIMES) with true. cbv iota.
    rewrite mul_exact by lia. apply finish_calculation_integer. lia.
  - change (JsString.eqb DIVIDE (lit "+")) with false.
    change (JsString.eqb DIVIDE (lit "-")) with false.
    change (JsString.eqb DIVIDE TIMES) with false.
    change (JsString.eqb DIVIDE DIVIDE) with true. cbv iota.
    rewrite of_Z_not_zero by lia.
    rewrite div_exact by lia. apply finish_calculation_integer. lia.
Qed.

(** X18. With a multiple of a positive integer in the left operand, both
    below 2^53, and that integer on the display, the equals key of a pending
    division shows the exact quotient, as long as it has at most twelve
    digits. *)
Theorem calculate_exact_division (n b : Z) (s : state) :
  0 <= n < 10 ^ 12 -> 0 < b < 2 ^ 53 -> n * b < 2 ^ 53 ->
  previousInput s = decimal (n * b) -> currentInput s = decimal b ->
  operation s = Some DIVIDE ->
  let s' := fst (calculate Math s) in
  currentInput s' = decimal n
  /\ operation s' = None /\ previousInput s' = [].
Proof.
  intros Hn Hb Hab Hp Hc Ho.
  apply (calculate_exact (n * b) b n DIVIDE); auto.
  - nia.
  - lia.
  - right. right. right. split; [reflexivity|]. split; [lia | reflexivity].
Qed.

End ExactDivision.

(** ** A calculation from the keys *)

Section TypedCalculation.

Import Calculator Spec.

Variable Math : MathLib.

(** The numeral of a positive integer starts with a digit from 1 to 9. *)
Lemma digits_leading (n : Z) :
  0 < n -> exists d t, digits 10 n = d :: t /\ 1 <= d < 10.
Proof.
  intros Hn. assert (H0 : 0 <= n) by lia. revert Hn.
  pattern n. apply Zlt_0_ind; [|exact H0]. clear n H0.
  intros n IH _ Hn.
  destruct (Z_lt_le_dec n 10) as [Hs | Hl].
  - exists n, []. rewrite digits_small by lia. split; [reflexivity | lia].
  - rewrite digits_step by lia.
    assert (Hq : 0 < n / 10 < n).
    { split; [apply Z.div_str_pos; lia | apply Z.div_lt; lia]. }
    destruct (IH (n / 10) ltac:(lia) ltac:(lia)) as (d & t & E & Hd).
    exists d, (t ++ [n mod 10]). rewrite E. split; [reflexivity | exact Hd].
Qed.

Lemma digit_char_decimal (d : Z) :
  0 <= d < 10 ->
  decimal_digit (digit_char d) = true
  /\ (1 <= d -> digit_char d <> chr "0").
Proof.
  intros Hd.
  assert (E : d = 0 \/ d = 1 \/ d = 2 \/ d = 3 \/ d = 4 \/ d = 5 \/ d = 6
              \/ d = 7 \/ d = 8 \/ d = 9) by lia.
  repeat (destruct E as [E | E];
          [subst d; split; [reflexivity | intros H; try lia; discriminate]|]).
  subst d; split; [reflexivity | intros H; discriminate].
Qed.

Lemma decimal_all_digits (n : Z) :
  0 <= n -> Forall (fun c => decimal_digit c = true) (decimal n).
Proof.
  intros Hn. unfold decimal, digit_string. apply Forall_map.
  eapply Forall_impl; [|apply (digits_in_range 10 ltac:(lia) n Hn)].
  intros d Hd. apply digit_char_decimal. exact Hd.
Qed.

(** Behind a display that starts with a digit other than 0, with the reset
    flag down, the decimal digits pile up and nothing else changes. *)
Lemma input_digits_pile (ds : list char16) :
  forall (s : state) (a : char16) (t : str),
  Forall (fun d => decimal_digit d = true) ds ->
  currentBase s = dec -> resetScreen s = false ->
  currentInput s = a :: t -> a <> chr "0" ->
  input_digits s ds = set_currentInput (currentInput s ++ ds) s.
Proof.
  induction ds as [|d ds IH]; intros s a t Hds Hb Hr Hc Ha.
  - rewrite app_nil_r. destruct s; reflexivity.
  - inversion Hds as [|? ? Hd Hds']; subst.
    assert (Hne : currentInput s <> lit "0").
    { rewrite Hc. intros E. injection E as E _. contradiction. }
    assert (Hv : valid_digit (currentBase s) d = true)
      by (rewrite Hb; exact Hd).
    unfold input_digits. cbn [fold_left].
    rewrite (handleNumberButton_appends _ _ Hd Hv Hr Hne).
    fold (input_digits (set_currentInput (currentInput s ++ [d]) s) ds).
    rewrite (IH _ a (t ++ [d])); auto.
    + destruct s; cbn [set_currentInput currentInput].
      rewrite <- app_assoc. reflexivity.
    + destruct s; cbn [set_currentInput currentInput] in *.
      rewrite Hc. reflexivity.
Qed.

(** The keys of a decimal numeral, on a display that shows 0 or is due to
    be replaced, leave the numeral on the display and the reset flag
    down. *)
Lemma input_digits_numeral (n : Z) (s : state) :
  0 <= n -> currentBase s = dec ->
  resetScreen s = true \/ currentInput s = lit "0" ->
  input_digits s (decimal n)
  = set_resetScreen false (set_currentInput (decimal n) s).
Proof.
  intros Hn Hb Hs.
  pose proof (decimal_all_digits n Hn) as Hall.
  destruct (Z.eq_dec n 0) as [-> | Hn0].
  - change (decimal 0) with (lit "0").
    unfold input_digits. cbn [lit list_ascii_of_string List.map fold_left].
    apply handleNumberButton_replaces; auto. rewrite Hb. reflexivity.
  - destruct (digits_leading n ltac:(lia)) as (d & t & E & Hd).
    unfold decimal, digit_string in *. rewrite E in *.
    cbn [List.map] in *.
    inversion Hall as [|? ? Hd0 Hrest]; subst.
    destruct (digit_char_decimal d ltac:(lia)) as [_ Hnz].
    unfold input_digits. cbn [fold_left].
    rewrite handleNumberButton_replaces;
      [| exact Hd0 | rewrite Hb; exact Hd0 | exact Hs].
    fold (input_digits
            (set_resetScreen false (set_currentInput [digit_char d] s))
            (List.map digit_char t)).
    rewrite (input_digits_pile _ _ (digit_char d) [] Hrest).
    + destruct s; reflexivity.
    + destruct s; exact Hb.
    + destruct s; reflexivity.
    + destruct s; reflexivity.
    + apply Hnz. lia.
Qed.

Lemma run_all_digits (ds : list char16) (s : state) :
  run_all Math s (List.map InputDigit ds) = input_digits s ds.
Proof.
  revert s. induction ds as [|d ds IH]; intros s; [reflexivity|].
  unfold run_all, input_digits in *. cbn [List.map fold_left].
  rewrite IH. reflexivity.
Qed.

(** X19. From a state with no pending operation whose display shows 0 or
    is due to be replaced, in decimal: the keys of a numeral, an operator
    key, the keys of a second numeral and the equals key show the exact sum,
    difference, product or quotient of the two integers, as long as the
    operands are below 2^53 and the result is a non-negative integer of at
    most twelve digits. *)
Theorem typed_calculation (a b r : Z) (op : str) (s : state) :
  0 <= a < 2 ^ 53 -> 0 <= b < 2 ^ 53 -> 0 <= r < 10 ^ 12 ->
  currentBase s = dec -> operation s = None ->
  resetScreen s = true \/ currentInput s = lit "0" ->
  (op = lit "+" /\ r = a + b
   \/ op = lit "-" /\ r = a - b
   \/ op = TIMES /\ r = a * b
   \/ op = DIVIDE /\ 0 < b /\ a = r * b) ->
  currentInput
    (run_all Math s
       (List.map InputDigit (decimal a)
        ++ SetOperator op :: List.map InputDigit (decimal b) ++ [Evaluate]))
  = decimal r.
Proof.
  intros Ha Hb Hr Hbase Hnone Hs Hop.
  unfold run_all. rewrite fold_left_app. cbn [fold_left].
  rewrite fold_left_app. cbn [fold_left].
  fold (run_all Math s (List.map InputDigit (decimal a))).
  rewrite run_all_digits, input_digits_numeral by (auto; lia).
  set (s1 := set_resetScreen false (set_currentInput (decimal a) s)).
  assert (Hpct : JsString.eqb op (lit "%") = false).
  { destruct Hop as [[-> _] | [[-> _] | [[-> _] | [-> _]]]]; reflexivity. }
  assert (E2 : step Math s1 (SetOperator op)
               = set_resetScreen true
                   (set_operation (Some op)
                      (set_previousInput (decimal a) s1))).
  { unfold step, run, handleOperatorButton. rewrite Hpct.
    assert (Eo : operation s1 = None) by (destruct s; exact Hnone).
    rewrite Eo. cbn [truthy_op andb fst].
    reflexivity. }
  rewrite E2.
  set (s2 := set_resetScreen true
               (set_operation (Some op) (set_previousInput (decimal a) s1))).
  fold (run_all Math s2 (List.map InputDigit (decimal b))).
  rewrite run_all_digits, input_digits_numeral.
  - unfold step, run.
    apply (calculate_exact Math a b r op); auto; destruct s; reflexivity.
  - lia.
  - destruct s; exact Hbase.
  - left. destruct s; reflexivity.
Qed.

End TypedCalculation.

Section KeyInstances.

Import Calculator Spec Examples.

Lemma calculate_exact_division_witness :
  0 <= 12 < 10 ^ 12 /\ 0 < 7 < 2 ^ 53 /\ 12 * 7 < 2 ^ 53
  /\ currentInput
       (fst (calculate math_unused
               (set_operation (Some DIVIDE)
                  (set_previousInput (decimal (12 * 7))
                     (set_currentInput (decimal 7) init)))))
     = decimal 12.
Proof.
  assert (R12 : 0 <= 12 < 10 ^ 12) by (split; [discriminate | reflexivity]).
  assert (R7 : 0 < 7 < 2 ^ 53) by (split; reflexivity).
  split; [exact R12|]. split; [exact R7|]. split; [reflexivity|].
  apply (proj1 (calculate_exact_division math_unused 12 7
                  (set_operation (Some DIVIDE)
                     (set_previousInput (decimal (12 * 7))
                        (set_currentInput (decimal 7) init)))
                  R12 R7 eq_refl eq_refl eq_refl eq_refl)).
Defined.

Lemma typed_calculation_witness :
  0 <= 84 < 2 ^ 53 /\ 0 <= 7 < 2 ^ 53 /\ 0 <= 12 < 10 ^ 12
  /\ currentBase init = dec /\ operation init = None
  /\ currentInput init = lit "0"
  /\ 0 < 7 /\ 84 = 12 * 7
  /\ currentInput
       (run_all math_unused init
          (List.map InputDigit (decimal 84)
           ++ SetOperator DIVIDE
              :: List.map InputDigit (decimal 7) ++ [Evaluate]))
     = decimal 12.
Proof.
  assert (R84 : 0 <= 84 < 2 ^ 53) by (split; [discriminate | reflexivity]).
  assert (R7 : 0 <= 7 < 2 ^ 53) by (split; [discriminate | reflexivity]).
  assert (R12 : 0 <= 12 < 10 ^ 12) by (split; [discriminate | reflexivity]).
  split; [exact R84|]. split; [exact R7|]. split; [exact R12|].
  split; [reflexivity|]. split; [reflexivity|]. split; [reflexivity|].
  split; [reflexivity|]. split; [reflexivity|].
  apply (typed_calculation math_unused 84 7 12 DIVIDE init
           R84 R7 R12 eq_refl eq_refl (or_intror eq_refl)
           (or_intror (or_intror (or_intror
              (conj eq_refl (conj eq_refl eq_refl)))))).
Defined.

End KeyInstances.
